(** * Cross-context action relay and service orchestration

  A shallow embedding of [background/redux-slices/utils.ts] and
  [background/main.ts], with the properties claimed for them.

  Layout: the JavaScript data the code manipulates ([JS]), the
  serialization codec ([Codec]), the alias registry, async lifecycle
  wrapper and UI adaptation of utils.ts ([Utils]), the store wiring of
  main.ts ([Main]); the theorems follow the definitions. *)

From Stdlib Require Import ZArith DecimalString DecimalPos DecimalZ.
From stdpp Require Import base option list strings gmap fin_maps.

Set Warnings "-register-all".
Local Open Scope string_scope.
Local Open Scope list_scope.

(* ===================================================================== *)
(** ** JavaScript data *)
(* ===================================================================== *)

Module JS.

(** Errors the embedded code can throw. *)
Inductive Error :=
| AliasRegisteredTwice
    (* new Error("Attempted to register an alias twice.") *)
| ParseError
    (* thrown by decodeJSON *)
| UnexpectedPersistedState
    (* new Error(`Unexpected JSON persisted for state: ${state}`) *)
| TypeError
    (* calling something that is not a function *)
| ServiceCreationFailed.
    (* a rejected service factory promise *)

(** The completion of a call: a normal return or a thrown error. *)
Inductive Completion (A : Type) :=
| Return (a : A)
| Throw (e : Error).
Arguments Return {A} a.
Arguments Throw {A} e.

Definition returned {A} (c : Completion A) : option A :=
  match c with Return a => Some a | Throw _ => None end.

Definition threw {A} (c : Completion A) : bool :=
  match c with Return _ => false | Throw _ => true end.

(** The property names every object created by an object literal inherits
    from [Object.prototype]: [o[k]] and [k in o] find them when [o] has no
    own property [k]. *)
Definition objectPrototypeKeys : list string :=
  [ "constructor"; "hasOwnProperty"; "isPrototypeOf";
    "propertyIsEnumerable"; "toLocaleString"; "toString"; "valueOf";
    "__proto__"; "__defineGetter__"; "__defineSetter__";
    "__lookupGetter__"; "__lookupSetter__" ].

Definition inherited (k : string) : bool :=
  bool_decide (k ∈ objectPrototypeKeys).

(** What [o[k]] evaluates to on an object literal whose own properties are
    the finite map [o]. *)
Inductive Property (A : Type) :=
| Own (a : A)
| Inherited
| Undefined.
Arguments Own {A} a.
Arguments Inherited {A}.
Arguments Undefined {A}.

Definition get {A} (o : gmap string A) (k : string) : Property A :=
  match o !! k with
  | Some a => Own a
  | None => if inherited k then Inherited else Undefined
  end.

(** [k in o] *)
Definition has {A} (o : gmap string A) (k : string) : bool :=
  match get o k with Undefined => false | _ => true end.

(** A JavaScript string is falsy exactly when it is empty. *)
Definition truthyString (s : string) : bool :=
  match s with EmptyString => false | _ => true end.

End JS.
Export JS.

(* ===================================================================== *)
(** ** Serialization codec (lib/utils: encodeJSON, decodeJSON) *)
(* ===================================================================== *)

Module Codec.

(** The values the relay and the store carry. Ordinary numbers are
    represented by the integers; [VBigInt] is the extended-precision
    integer type. A mapping lists its members in property order. *)
Inductive value :=
| VNull
| VBool (b : bool)
| VNumber (n : Z)
| VString (s : string)
| VBigInt (n : Z)
| VArray (items : list value)
| VObject (members : list (string * value)).

(** A JSON document: the wire form has no extended-precision integers. *)
Inductive json :=
| JNull
| JBool (b : bool)
| JNumber (n : Z)
| JString (s : string)
| JArray (items : list json)
| JObject (members : list (string * json)).

(** A string handed to the platform's JSON parser: the text of a JSON
    document, represented by that document, or any other string. *)
Inductive text :=
| JSONText (doc : json)
| NotJSON (raw : string).

(** The text of a JSON document is never empty. *)
Definition truthyText (t : text) : bool :=
  match t with
  | JSONText _ => true
  | NotJSON raw => truthyString raw
  end.

(** [bigint.toString()] and its inverse on decimal numerals. *)
Definition bigintToString (n : Z) : string :=
  NilZero.string_of_int (Z.to_int n).

Definition parseBigInt (s : string) : option Z :=
  Z.of_int <$> NilZero.int_of_string s.

(** The member of a mapping under a key (the first one listed). *)
Fixpoint member {A} (k : string) (ms : list (string * A)) : option A :=
  match ms with
  | [] => None
  | (k', a) :: ms' => if decide (k' = k) then Some a else member k ms'
  end.

(** Modelled from the spec: lib/utils.ts (encodeJSON, decodeJSON) is not
    among the sources. "extended-precision integers are tagged so they can
    be distinguished from ordinary numbers on decode": the tag is a mapping
    with one reserved key holding the integer's decimal numeral. The spec
    does not name the key. *)
Definition bigintTag : string := "B_I_G_I_N_T".

(** Modelled from the spec: the walk of [encode]. "primitives other than
    extended-precision integers pass through unchanged; ... composite
    structures ... are walked recursively and reassembled with the same
    shape". *)
Fixpoint tagBigInts (v : value) : json :=
  match v with
  | VNull => JNull
  | VBool b => JBool b
  | VNumber n => JNumber n
  | VString s => JString s
  | VBigInt n => JObject [(bigintTag, JString (bigintToString n))]
  | VArray items => JArray (tagBigInts <$> items)
  | VObject members =>
      JObject ((fun kv => (kv.1, tagBigInts kv.2)) <$> members)
  end.

(** Modelled from the spec: the walk of [decode], "inverse transform";
    a mapping that carries the tag key is read as a tagged integer, and a
    tag whose content is not a decimal numeral is malformed. *)
Fixpoint untagBigInts (j : json) : option value :=
  match j with
  | JNull => Some VNull
  | JBool b => Some (VBool b)
  | JNumber n => Some (VNumber n)
  | JString s => Some (VString s)
  | JArray items => VArray <$> mapM untagBigInts items
  | JObject members =>
      match member bigintTag members with
      | Some (JString s) => VBigInt <$> parseBigInt s
      | Some _ => None
      | None =>
          VObject <$>
            mapM (fun kv => pair kv.1 <$> untagBigInts kv.2) members
      end
  end.

(** A JSON document read as a value: the values without extended-precision
    integers are the JSON documents. *)
Fixpoint plain (j : json) : value :=
  match j with
  | JNull => VNull
  | JBool b => VBool b
  | JNumber n => VNumber n
  | JString s => VString s
  | JArray items => VArray (plain <$> items)
  | JObject members => VObject ((fun kj => (kj.1, plain kj.2)) <$> members)
  end.

(** Modelled from the spec: the walk of [encode] for any way [tag] of
    writing an extended-precision integer as a JSON document. *)
Fixpoint tagWith (tag : Z -> json) (v : value) : json :=
  match v with
  | VNull => JNull
  | VBool b => JBool b
  | VNumber n => JNumber n
  | VString s => JString s
  | VBigInt n => tag n
  | VArray items => JArray (tagWith tag <$> items)
  | VObject members =>
      JObject ((fun kv => (kv.1, tagWith tag kv.2)) <$> members)
  end.

(** Modelled from the spec: [encode(value) → text]. *)
Definition encodeJSON (v : value) : text := JSONText (tagBigInts v).

(** Modelled from the spec: [decode(text) → value], which "fails with a
    ParseError if the text is not valid encoded JSON or contains a
    malformed tag". *)
Definition decodeJSON (t : text) : Completion value :=
  match t with
  | NotJSON _ => Throw ParseError
  | JSONText doc =>
      match untagBigInts doc with
      | Some v => Return v
      | None => Throw ParseError
      end
  end.

(** No mapping inside the value has the tag key among its own keys. *)
Fixpoint tagFree (v : value) : bool :=
  match v with
  | VArray items => forallb tagFree items
  | VObject members =>
      negb (bool_decide (bigintTag ∈ members.*1))
      && forallb (fun kv => tagFree kv.2) members
  | _ => true
  end.

(** [typeof v === "object" && v !== null] *)
Definition isNonNullObject (v : value) : bool :=
  match v with
  | VArray _ | VObject _ => true
  | _ => false
  end.

End Codec.
Export Codec.

(* ===================================================================== *)
(** ** background/redux-slices/utils.ts *)
(* ===================================================================== *)

Module Utils.

(** [{ type: string, payload: any }] *)
Record Action := { type : string; payload : value }.

(** The three actions an async thunk dispatches on the store. *)
Inductive LifecycleAction :=
| Pending (typePrefix : string) (arg : value)
| Fulfilled (typePrefix : string) (arg : value) (result : value)
| Rejected (typePrefix : string) (arg : value) (reason : value).

(** How a call of the payload creator ends. *)
Inductive Outcome :=
| Resolves (result : value)
| Throws (reason : value)
| Rejects (reason : value).

Definition AsyncThunkPayloadCreator := value -> Outcome.

(** [options.condition]: the thunk is skipped when it returns [false]. *)
Record AsyncThunkOptions := { condition : option (value -> bool) }.

(** The store a thunk runs against: the lifecycle actions dispatched on it
    and the calls of payload creators made in its context, oldest first. *)
Record Store := {
  dispatched : list LifecycleAction;
  operationCalls : list (string * value)
}.

Definition dispatch (a : LifecycleAction) (s : Store) : Store :=
  {| dispatched := dispatched s ++ [a]; operationCalls := operationCalls s |}.

Definition invoke (typePrefix : string) (arg : value) (s : Store) : Store :=
  {| dispatched := dispatched s;
     operationCalls := operationCalls s ++ [(typePrefix, arg)] |}.

(** How the promise of a thunk settles. *)
Inductive Settled (A : Type) :=
| Resolved (a : A)
| Unhandled (reason : value).
Arguments Resolved {A} a.
Arguments Unhandled {A} reason.

(** [AsyncThunkAction]: what the thunk middleware runs. *)
Definition AsyncThunkAction :=
  Store -> Settled (option LifecycleAction) * Store.

(** Modelled from the spec: the skip condition of [createAsyncThunk]
    "signals skip". *)
Definition skipped (options : option AsyncThunkOptions) (arg : value)
  : bool :=
  match options with
  | Some {| condition := Some cond |} => negb (cond arg)
  | _ => false
  end.

(** Modelled from the spec: the terminal action of [createAsyncThunk], "on
    success dispatches Fulfilled; on thrown error or rejected result
    dispatches Rejected". *)
Definition terminal (typePrefix : string) (arg : value) (o : Outcome)
  : LifecycleAction :=
  match o with
  | Resolves result => Fulfilled typePrefix arg result
  | Throws reason | Rejects reason => Rejected typePrefix arg reason
  end.

(** Modelled from the spec: [createAsyncThunk] is the toolkit's, not among
    the sources. "(1) optionally evaluates a skip condition from options; if
    it signals skip, no lifecycle actions are dispatched and the call
    resolves inertly; (2) otherwise immediately dispatches Pending;
    (3) invokes operation(argument); (4) on success dispatches Fulfilled; on
    thrown error or rejected result dispatches Rejected". *)
Definition createAsyncThunk (typePrefix : string)
    (payloadCreator : AsyncThunkPayloadCreator)
    (options : option AsyncThunkOptions) (arg : value) : AsyncThunkAction :=
  fun s =>
    if skipped options arg then (Resolved None, s)
    else
      let s := dispatch (Pending typePrefix arg) s in
      let s := invoke typePrefix arg s in
      let final := terminal typePrefix arg (payloadCreator arg) in
      (Resolved (Some final), dispatch final s).

(** The state of the module: the own properties of [allAliases], and the
    type prefixes [createAsyncThunk] was called with, oldest first. *)
Record UtilsModule := {
  allAliases : gmap string (Action -> AsyncThunkAction);
  createAsyncThunkCalls : list string
}.

(** [export const allAliases = {}] *)
Definition initialModule : UtilsModule :=
  {| allAliases := ∅; createAsyncThunkCalls := [] |}.

(** The wrapped action creator: the function, which may touch the store of
    the context that calls it, and the [typePrefix] property copied from the
    base thunk. The [pending], [rejected] and [fulfilled] properties copied
    with it build the constructors of [LifecycleAction]. *)
Record WebextActionCreator := {
  call : value -> Store -> Action * Store;
  creatorTypePrefix : string
}.

(** [allAliases[typePrefix]] in the condition of an [if]: functions and the
    inherited built-ins are truthy. *)
Definition aliased (m : UtilsModule) (typePrefix : string) : bool :=
  match get (allAliases m) typePrefix with
  | Own _ | Inherited => true
  | Undefined => false
  end.

Definition createBackgroundAsyncThunk (typePrefix : string)
    (payloadCreator : AsyncThunkPayloadCreator)
    (options : option AsyncThunkOptions) (m : UtilsModule)
  : Completion WebextActionCreator * UtilsModule :=
  if aliased m typePrefix then (Throw AliasRegisteredTwice, m)
  else
    let baseThunkActionCreator :=
      createAsyncThunk typePrefix payloadCreator options in
    let m :=
      {| allAliases := allAliases m;
         createAsyncThunkCalls := createAsyncThunkCalls m ++ [typePrefix] |} in
    let webextActionCreator :=
      {| call := fun payload s =>
                   ({| type := typePrefix; payload := payload |}, s);
         creatorTypePrefix := typePrefix |} in
    let m :=
      {| allAliases :=
           <[typePrefix := fun action => baseThunkActionCreator (payload action)]>
             (allAliases m);
         createAsyncThunkCalls := createAsyncThunkCalls m |} in
    (Return webextActionCreator, m).

(** [UIAdaptationMap<T>[P]]. A transformer receives what [item[key]]
    evaluates to: a value, or [undefined] ([None]). *)
Record KeyAdjustment (V : Type) := {
  readableName : string;
  transformer : option V -> string;
  detailTransformer : option V -> string
}.
Arguments readableName {V} _.
Arguments transformer {V} _ _.
Arguments detailTransformer {V} _ _.

(** [Object.keys(item)]: the own enumerable keys, in property order. An
    object lists each own key once. *)
Definition Object_keys {V} (item : list (string * V)) : list string :=
  item.*1.

(** The reducer passed to [reduce]. An own property of [keysMap] may hold
    [undefined] ([None]); a key found in [keysMap] only by inheritance
    yields a built-in, whose [transformer] is not a function. *)
Definition adaptKey {V} (keysMap : gmap string (option (KeyAdjustment V)))
    (item : list (string * V))
    (previousValue : gmap string string) (key : string)
  : Completion (gmap string string) :=
  if has keysMap key then
    match get keysMap key with
    | Own (Some keyAdjustment) =>
        Return (<[readableName keyAdjustment :=
                    transformer keyAdjustment (member key item)]>
                  previousValue)
    | Own None => Return previousValue
    | Inherited => Throw TypeError
    | Undefined => Return previousValue
    end
  else Return previousValue.

(** [Object.keys(item).reduce(..., {})]; a throw ends the reduction. *)
Definition adaptForUI {V} (keysMap : gmap string (option (KeyAdjustment V)))
    (item : list (string * V)) : Completion (gmap string string) :=
  fold_left
    (fun previousValue key =>
       match previousValue with
       | Throw e => Throw e
       | Return previousValue => adaptKey keysMap item previousValue key
       end)
    (Object_keys item) (Return ∅).

(** The readable name [adaptForUI] writes for a key: that of the key's
    defined [keysMap] entry, if it has one. *)
Definition adaptedName {V} (keysMap : gmap string (option (KeyAdjustment V)))
    (key : string) : option string :=
  match keysMap !! key with
  | Some (Some keyAdjustment) => Some (readableName keyAdjustment)
  | _ => None
  end.

(** The readable names written for an item, in the order of its keys. *)
Definition adaptedNames {V} (keysMap : gmap string (option (KeyAdjustment V)))
    (item : list (string * V)) : list string :=
  omap (adaptedName keysMap) (Object_keys item).

(** [key] is no own property of [keysMap], yet [key in keysMap] holds. *)
Definition inheritedOnly {V} (keysMap : gmap string (option (KeyAdjustment V)))
    (key : string) : bool :=
  match keysMap !! key with
  | Some _ => false
  | None => inherited key
  end.

End Utils.
Export Utils.

(* ===================================================================== *)
(** ** background/main.ts *)
(* ===================================================================== *)

Module Main.

(** [process.env] *)
Record Env := {
  WRITE_REDUX_CACHE : option string;
  READ_REDUX_CACHE : option string
}.

(** A property of a transaction object as the handler reads it. *)
Inductive Slot (A : Type) :=
| Missing
| Undef
| Null
| Val (a : A).
Arguments Missing {A}.
Arguments Undef {A}.
Arguments Null {A}.
Arguments Val {A} a.

(** The fields of [AnyEVMTransaction] the orchestrator reads. *)
Record Transaction := {
  hash : string;
  blockHash : Slot string;
  gasUsed : Slot Z
}.

(** The payload of the chain service's [transaction] event. *)
Record TransactionEvent := {
  transaction : Transaction;
  forAccounts : list string
}.

(** The actions main.ts builds with the slices' action creators. *)
Inductive ReduxAction :=
| transactionConfirmed (t : Transaction)
| transactionSeen (t : Transaction)
| activityEncountered (payload : TransactionEvent)
| otherAction (a : Action).

(** The background context: the state of the store, the actions handed to
    [store.dispatch], and the [browser.storage.local.set] calls issued
    whose promise has not settled, all oldest first. *)
Record World := {
  state : value;
  dispatchLog : list ReduxAction;
  pendingWrites : list (string * text)
}.

(** [transaction.blockHash] as a condition *)
Definition truthyBlockHash (t : Transaction) : bool :=
  match blockHash t with
  | Val h => truthyString h
  | _ => false
  end.

(** ["gasUsed" in transaction && transaction.gasUsed !== undefined] *)
Definition definedGasUsed (t : Transaction) : bool :=
  match gasUsed t with
  | Missing | Undef => false
  | Null | Val _ => true
  end.

(** The five service factory promises awaited by [Main.create]. *)
Record Services := {
  preferenceService : Completion unit;
  chainService : Completion unit;
  indexingService : Completion unit;
  keyringService : Completion unit;
  nameService : Completion unit
}.

(** [initializeStore(startupState)]: the store and what it was preloaded
    with. *)
Record ReduxStore := { preloadedState : value }.

Section Orchestrator.

(** The root reducer of ./redux-slices and the codec of ./lib/utils. *)
Context (rootReducer : value -> ReduxAction -> value).
Context (encodeJSON : value -> text).
Context (decodeJSON : text -> Completion value).
Context (env : Env).

Definition Dispatch := ReduxAction -> World -> ReduxAction * World.

(** The store's own dispatch: the reducers process the action. *)
Definition baseDispatch : Dispatch := fun action w =>
  (action,
   {| state := rootReducer (state w) action;
      dispatchLog := dispatchLog w ++ [action];
      pendingWrites := pendingWrites w |}).

(** [browser.storage.local.set({ [key]: t })], its promise dropped. *)
Definition storageLocalSet (key : string) (t : text) (w : World) : World :=
  {| state := state w;
     dispatchLog := dispatchLog w;
     pendingWrites := pendingWrites w ++ [(key, t)] |}.

Definition reduxCache (next : Dispatch) : Dispatch := fun action w =>
  let '(result, w) := next action w in
  let state := state w in
  let w :=
    if decide (WRITE_REDUX_CACHE env = Some "true")
    then storageLocalSet "state" (encodeJSON state) w
    else w in
  (result, w).

(** The end of the middleware chain of [initializeStore]: [reduxCache] is
    pushed last, so its [next] is the store's own dispatch. This is what
    [store.dispatch] does with an action that the alias and thunk middleware
    in front of it pass on; the whole chain is [Pipeline.relayDispatch]. *)
Definition storeDispatch : Dispatch := reduxCache baseDispatch.

(** A run of actions handed to [reduxCache], one after the other. *)
Definition dispatchAll (actions : list ReduxAction) (w : World) : World :=
  fold_left (fun w action => (storeDispatch action w).2) actions w.

(** The listener on the chain service's [transaction] event. *)
Definition onTransaction (payload : TransactionEvent) (w : World) : World :=
  let transaction := transaction payload in
  let w :=
    if truthyBlockHash transaction && definedGasUsed transaction
    then (storeDispatch (transactionConfirmed transaction) w).2
    else (storeDispatch (transactionSeen transaction) w).2 in
  (storeDispatch (activityEncountered payload) w).2.

(** Lines 147-164 of [Main.create]: the state the store is preloaded with.
    [storage] is what [browser.storage.local] holds. *)
Definition savedReduxState (storage : gmap string text) : Completion value :=
  let savedReduxState := VObject [] in
  if decide (READ_REDUX_CACHE env = Some "true") then
    match storage !! "state" with
    | Some state =>
        if truthyText state then
          match decodeJSON state with
          | Throw e => Throw e
          | Return restoredState =>
              if isNonNullObject restoredState
              then Return restoredState
              else Throw UnexpectedPersistedState
          end
        else Return savedReduxState
    | None => Return savedReduxState
    end
  else Return savedReduxState.

Definition await {A B} (p : Completion A) (k : A -> Completion B)
  : Completion B :=
  match p with
  | Return a => k a
  | Throw e => Throw e
  end.

(** [Main.create]: the snapshot is read first, then the five services are
    awaited in argument order, then the constructor initializes the store. *)
Definition create (storage : gmap string text) (services : Services)
  : Completion ReduxStore :=
  await (savedReduxState storage) (fun savedReduxState =>
  await (preferenceService services) (fun _ =>
  await (chainService services) (fun _ =>
  await (indexingService services) (fun _ =>
  await (keyringService services) (fun _ =>
  await (nameService services) (fun _ =>
  Return {| preloadedState := savedReduxState |})))))).

End Orchestrator.

Definition allCreated (services : Services) : Prop :=
  preferenceService services = Return tt
  /\ chainService services = Return tt
  /\ indexingService services = Return tt
  /\ keyringService services = Return tt
  /\ nameService services = Return tt.

End Main.
Export Main.

(* ===================================================================== *)
(** ** utils.ts: loading the slices, and the rows of an activity *)
(* ===================================================================== *)

Module Slices.

(** One call of [createBackgroundAsyncThunk] made while a slice loads. *)
Record Registration := {
  regTypePrefix : string;
  regPayloadCreator : AsyncThunkPayloadCreator;
  regOptions : option AsyncThunkOptions
}.

(** The calls made while the slices load, in order; the first throw ends
    the loading with what was registered before it. *)
Fixpoint registerAll (registrations : list Registration) (m : UtilsModule)
  : Completion unit * UtilsModule :=
  match registrations with
  | [] => (Return tt, m)
  | r :: registrations =>
      match
        createBackgroundAsyncThunk (regTypePrefix r) (regPayloadCreator r)
          (regOptions r) m
      with
      | (Return _, m) => registerAll registrations m
      | (Throw e, m) => (Throw e, m)
      end
  end.

End Slices.
Export Slices.

Module ActivityRows.

(** What the reduction of [adaptForUI] writes under [name] when it visits
    [key]: the transformed value, if the key's defined entry has that
    readable name. *)
Definition adaptedValue {V} (keysMap : gmap string (option (KeyAdjustment V)))
    (item : list (string * V)) (name key : string) : option string :=
  match keysMap !! key with
  | Some (Some keyAdjustment) =>
      if decide (readableName keyAdjustment = name)
      then Some (transformer keyAdjustment (member key item))
      else None
  | _ => None
  end.

(** The types [ActivityItem] gives the fields that [keysMap] adapts:
    [blockHeight] and [timestamp] are numbers, and [value], [gasUsed],
    [maxFeePerGas] and [gasPrice] are what [ethTransformer] accepts, a
    string, a number, a bigint or null. The transformers are only defined
    on these. *)
Definition fieldTyped (entry : string * value) : bool :=
  if bool_decide (entry.1 ∈ ["blockHeight"; "timestamp"]) then
    match entry.2 with VNumber _ => true | _ => false end
  else if bool_decide
            (entry.1 ∈ ["value"; "gasUsed"; "maxFeePerGas"; "gasPrice"]) then
    match entry.2 with
    | VString _ | VNumber _ | VBigInt _ | VNull => true
    | _ => false
    end
  else true.

Definition activityItemTyped (item : list (string * value)) : bool :=
  forallb fieldTyped item.

Section Transformers.

(** [convertToEth] of ../lib/utils, [Number.prototype.toString] and
    [dayjs.unix(item).format("MM/DD/YYYY hh:mm a")]. *)
Context (convertToEth : option value -> string).
Context (numberToString : option value -> string).
Context (formatUnix : value -> string).

Definition ethTransformer (v : option value) : string :=
  match v with
  | Some VNull => "(Unknown)"
  | _ => String.append (convertToEth v) " ETH"
  end.

(** [export const keysMap: UIAdaptationMap<ActivityItem>] *)
Definition keysMap : gmap string (option (KeyAdjustment value)) :=
  list_to_map
    [ ("blockHeight",
       Some {| readableName := "Block Height";
               transformer := numberToString;
               detailTransformer := fun _ => "" |});
      ("value",
       Some {| readableName := "Amount";
               transformer := ethTransformer;
               detailTransformer := ethTransformer |});
      ("gasUsed",
       Some {| readableName := "Gas";
               transformer := ethTransformer;
               detailTransformer := ethTransformer |});
      ("maxFeePerGas",
       Some {| readableName := "Max Fee/Gas";
               transformer := ethTransformer;
               detailTransformer := ethTransformer |});
      ("gasPrice",
       Some {| readableName := "Gas Price";
               transformer := ethTransformer;
               detailTransformer := ethTransformer |});
      ("timestamp",
       Some {| readableName := "Timestamp";
               transformer := fun item =>
                 match item with
                 | Some seconds => formatUnix seconds
                 | None => "(Unknown)"
                 end;
               detailTransformer := fun _ => "" |}) ].

End Transformers.

End ActivityRows.
Export ActivityRows.

(* ===================================================================== *)
(** ** main.ts: the devtools sanitizer and the chain service wiring *)
(* ===================================================================== *)

Module DevTools.

(** [typeof input] on the values the store and the actions carry. *)
Inductive TypeOf := TObject | TBoolean | TNumber | TString | TBigInt.

Definition typeof (v : value) : TypeOf :=
  match v with
  | VNull | VArray _ | VObject _ => TObject
  | VBool _ => TBoolean
  | VNumber _ => TNumber
  | VString _ => TString
  | VBigInt _ => TBigInt
  end.

(** [JSON.parse(t)]: the document of a JSON text, read as a value; any
    other string is a syntax error. *)
Definition JSON_parse (t : text) : Completion value :=
  match t with
  | JSONText doc => Return (plain doc)
  | NotJSON _ => Throw ParseError
  end.

Definition devToolsSanitizer (encodeJSON : value -> text) (input : value)
  : Completion value :=
  match typeof input with
  | TBigInt | TObject => JSON_parse (encodeJSON input)
  | _ => Return input
  end.

(** The value holds no extended-precision integer at any depth. *)
Fixpoint bigintFree (v : value) : bool :=
  match v with
  | VBigInt _ => false
  | VArray items => forallb bigintFree items
  | VObject members => forallb (fun kv => bigintFree kv.2) members
  | _ => true
  end.

End DevTools.
Export DevTools.

Module ChainWiring.

(** The options of the transaction-construction slice's [updateOptions]
    event; [None] is [undefined]. *)
Module Options.
Record t := {
  from : option string;
  to : option string;
  value : option Z;
  gasLimit : option Z;
  maxFeePerGas : option Z;
  maxPriorityFeePerGas : option Z
}.
End Options.

(** The transaction the listener builds from the options. *)
Module Request.
Record t := {
  from : string;
  to : option string;
  value : Z;
  gasLimit : Z;
  maxFeePerGas : Z;
  maxPriorityFeePerGas : Z;
  input : string;
  type : Z;
  chainID : string;
  nonce : Z;
  gasPrice : Z
}.
End Request.

(** How an awaited call to a service settles. *)
Inductive Reply (A : Type) :=
| Replied (a : A)
| Failed (reason : string).
Arguments Replied {A} a.
Arguments Failed {A} reason.

(** How a listener's promise settles. *)
Inductive Handled :=
| Completed
| RejectedWith (reason : string).

Section Listeners.

(** [getEthereumNetwork()] of ./lib/utils. *)
Context {Network : Type} (getEthereumNetwork : Network).

(** [{ address, network }] *)
Record AddressNetwork := { address : string; network : Network }.

(** The calls the orchestrator makes into the chain and keyring
    services. *)
Inductive ServiceCall :=
| getTransactionCountCall (address blockTag : string)
| getGasPriceCall
| estimateGasLimitCall (network : Network) (request : Request.t)
| signTransactionCall (address : string) (request : Request.t)
| getLatestBaseAccountBalanceCall (addressNetwork : AddressNetwork)
| pollBlockPricesCall.

(** What the services answer. *)
Record ServiceReplies := {
  getTransactionCount : string -> string -> Reply Z;
  getGasPrice : Reply Z;
  estimateGasLimit : Network -> Request.t -> Reply Z;
  signTransaction : string -> Request.t -> Reply unit
}.

Context (services : ServiceReplies).

(** The transaction literal of the listener. *)
Definition buildRequest (from : string) (to : option string)
    (value gasLimit maxFeePerGas maxPriorityFeePerGas resolvedNonce
       gasPrice : Z) : Request.t :=
  {| Request.from := from;
     Request.to := to;
     Request.value := value;
     Request.gasLimit := gasLimit;
     Request.maxFeePerGas := maxFeePerGas;
     Request.maxPriorityFeePerGas := maxPriorityFeePerGas;
     Request.input := "";
     Request.type := 2;
     Request.chainID := "1";
     Request.nonce := resolvedNonce;
     Request.gasPrice := gasPrice |}.

(** [transaction.gasLimit = ...] *)
Definition setGasLimit (request : Request.t) (gasLimit : Z) : Request.t :=
  {| Request.from := Request.from request;
     Request.to := Request.to request;
     Request.value := Request.value request;
     Request.gasLimit := gasLimit;
     Request.maxFeePerGas := Request.maxFeePerGas request;
     Request.maxPriorityFeePerGas := Request.maxPriorityFeePerGas request;
     Request.input := Request.input request;
     Request.type := Request.type request;
     Request.chainID := Request.chainID request;
     Request.nonce := Request.nonce request;
     Request.gasPrice := Request.gasPrice request |}.

(** The listener on [updateOptions]; [calls] are the service calls made so
    far, oldest first. A failed call rejects the listener's promise where
    it is awaited. *)
Definition onUpdateOptions (options : Options.t) (calls : list ServiceCall)
  : Handled * list ServiceCall :=
  match
    Options.from options, Options.gasLimit options,
    Options.maxFeePerGas options, Options.maxPriorityFeePerGas options,
    Options.value options
  with
  | Some from, Some gasLimit, Some maxFeePerGas, Some maxPriorityFeePerGas,
    Some value =>
      let calls := calls ++ [getTransactionCountCall from "latest"] in
      match getTransactionCount services from "latest" with
      | Failed reason => (RejectedWith reason, calls)
      | Replied resolvedNonce =>
          let calls := calls ++ [getGasPriceCall] in
          match getGasPrice services with
          | Failed reason => (RejectedWith reason, calls)
          | Replied gasPrice =>
              let transaction :=
                buildRequest from (Options.to options) value gasLimit
                  maxFeePerGas maxPriorityFeePerGas resolvedNonce gasPrice in
              let calls :=
                calls ++ [estimateGasLimitCall getEthereumNetwork transaction] in
              match estimateGasLimit services getEthereumNetwork transaction with
              | Failed reason => (RejectedWith reason, calls)
              | Replied estimate =>
                  let transaction := setGasLimit transaction estimate in
                  let calls := calls ++ [signTransactionCall from transaction] in
                  match signTransaction services from transaction with
                  | Failed reason => (RejectedWith reason, calls)
                  | Replied _ => (Completed, calls)
                  end
              end
          end
      end
  | _, _, _, _, _ => (Completed, calls)
  end.

(** The end of [connectChainService] up to the start of the polling: every
    tracked account is marked as loading and its balance refreshed, then
    the block prices are polled. [loadAccount] is the accounts slice's
    action creator. *)
Definition loadExistingAccounts
    (rootReducer : Codec.value -> ReduxAction -> Codec.value)
    (encodeJSON : Codec.value -> text) (env : Env)
    (loadAccount : string -> ReduxAction)
    (existingAccounts : list AddressNetwork)
    (background : World * list ServiceCall) : World * list ServiceCall :=
  let background :=
    fold_left
      (fun background addressNetwork =>
         ((storeDispatch rootReducer encodeJSON env
             (loadAccount (address addressNetwork)) background.1).2,
          background.2 ++ [getLatestBaseAccountBalanceCall addressNetwork]))
      existingAccounts background in
  (background.1, background.2 ++ [pollBlockPricesCall]).

End Listeners.

End ChainWiring.
Export ChainWiring.

(* ===================================================================== *)
(** ** main.ts: the middleware chain of initializeStore *)
(* ===================================================================== *)

Module Pipeline.

Section Chain.

(** The root reducer and the codec, as before; the action objects that the
    slices' creators ([sliceAction]) and the toolkit's lifecycle creators
    ([lifecycleAction]) build; and the module of utils.ts at the time of
    the dispatch, whose [allAliases] the alias middleware reads. *)
Context (rootReducer : value -> ReduxAction -> value).
Context (encodeJSON : value -> text).
Context (env : Env).
Context (sliceAction : ReduxAction -> Action).
Context (lifecycleAction : LifecycleAction -> Action).
Context (m : UtilsModule).

(** The action object: [action.type] and [action.payload]. *)
Definition toAction (action : ReduxAction) : Action :=
  match action with
  | otherAction a => a
  | _ => sliceAction action
  end.

(** Modelled from the spec: [store.dispatch] through the whole chain,
    [alias(allAliases)] first, then the toolkit's thunk middleware, then
    [reduxCache]. The alias and thunk middleware are webext-redux's and the
    toolkit's, not among the sources: "relay(action): looks up action.type;
    if found, invokes the handler with action.payload in the privileged
    context ...; if not found, the action is left untouched for normal
    reducer processing". The handler's thunk is run by the thunk middleware
    and is not passed on, so a relayed action reaches neither the reducers
    nor [reduxCache]; each lifecycle action the thunk dispatches goes
    through the whole chain in its turn. The lookup is [allAliases[type]]
    on an object literal: under "constructor" it finds [Object], which
    returns the action itself; under the other inherited names it finds a
    built-in that yields no action, and the dispatch throws. [depth] bounds
    how deep a dispatch may nest dispatches of lifecycle actions; [None] is
    a chain cut off at that bound. *)
Fixpoint relayDispatch (depth : nat) (action : ReduxAction) (w : World)
  : option (Completion World) :=
  match depth with
  | O => None
  | S depth =>
      let passedOn :=
        Some (Return (storeDispatch rootReducer encodeJSON env action w).2) in
      match get (allAliases m) (type (toAction action)) with
      | Undefined => passedOn
      | Inherited =>
          if decide (type (toAction action) = "constructor")
          then passedOn
          else Some (Throw TypeError)
      | Own alias =>
          fold_left
            (fun settled lifecycle =>
               match settled with
               | Some (Return w) =>
                   relayDispatch depth
                     (otherAction (lifecycleAction lifecycle)) w
               | _ => settled
               end)
            (dispatched
               (alias (toAction action)
                  {| dispatched := []; operationCalls := [] |}).2)
            (Some (Return w))
      end
  end.

End Chain.

End Pipeline.
Export Pipeline.

(* ===================================================================== *)
(** ** Properties of the codec *)
(* ===================================================================== *)

Section CodecFacts.

(** Closes [Forall P xs] for the members [xs] of a constructor from the
    induction hypothesis of the enclosing [fix]. *)
Ltac each_member_by IH :=
  match goal with
  | |- Forall _ ?xs =>
      let x := fresh "x" in
      let IHxs := fresh "IHxs" in
      induction xs as [| x xs IHxs]; constructor; [apply IH | exact IHxs]
  end.

(** Induction on values that reaches inside sequences and mappings. *)
Lemma value_nested_ind (P : value -> Prop)
    (HNull : P VNull)
    (HBool : forall b, P (VBool b))
    (HNumber : forall n, P (VNumber n))
    (HString : forall s, P (VString s))
    (HBigInt : forall n, P (VBigInt n))
    (HArray : forall items, Forall P items -> P (VArray items))
    (HObject : forall members,
        Forall (fun kv => P kv.2) members -> P (VObject members)) :
  forall v, P v.
Proof.
  fix IH 1. intros [| b | n | s | n | items | members].
  - exact HNull.
  - apply HBool.
  - apply HNumber.
  - apply HString.
  - apply HBigInt.
  - apply HArray. each_member_by IH.
  - apply HObject. each_member_by IH.
Qed.

Lemma parseBigInt_bigintToString n : parseBigInt (bigintToString n) = Some n.
Proof.
  unfold parseBigInt, bigintToString.
  rewrite NilZero.isi.
  - simpl. f_equal. apply DecimalZ.of_to.
  - destruct n; simpl; try discriminate.
    intros [= H]. by apply DecimalPos.Unsigned.to_uint_nonnil in H.
  - destruct n; simpl; try discriminate.
    intros [= H]. by apply DecimalPos.Unsigned.to_uint_nonnil in H.
Qed.

Lemma member_fmap_None {A B} (g : A -> B) k (ms : list (string * A)) :
  k ∉ ms.*1 -> member k ((fun kv => (kv.1, g kv.2)) <$> ms) = None.
Proof.
  induction ms as [| [k' a] ms IH]; simpl; [done |].
  intros Hk. apply not_elem_of_cons in Hk as [Hne Hk].
  destruct (decide (k' = k)); [congruence | auto].
Qed.

Lemma member_NoDup {A} k (a : A) ms :
  NoDup ms.*1 -> (k, a) ∈ ms -> member k ms = Some a.
Proof.
  induction ms as [| [k' a'] ms IH]; simpl.
  - intros _ H. inversion H.
  - intros Hnd Hin. apply NoDup_cons in Hnd as [Hk' Hnd].
    apply elem_of_cons in Hin as [[= <- <-] | Hin].
    + by rewrite decide_True.
    + destruct (decide (k' = k)) as [-> |]; [| auto].
      exfalso. apply Hk'. apply list_elem_of_fmap. by exists (k, a).
Qed.

(** The same for JSON documents. *)
Lemma json_nested_ind (P : json -> Prop)
    (HNull : P JNull)
    (HBool : forall b, P (JBool b))
    (HNumber : forall n, P (JNumber n))
    (HString : forall s, P (JString s))
    (HArray : forall items, Forall P items -> P (JArray items))
    (HObject : forall members,
        Forall (fun kj => P kj.2) members -> P (JObject members)) :
  forall j, P j.
Proof.
  fix IH 1. intros [| b | n | s | items | members].
  - exact HNull.
  - apply HBool.
  - apply HNumber.
  - apply HString.
  - apply HArray. each_member_by IH.
  - apply HObject. each_member_by IH.
Qed.

(** Values without extended-precision integers pass through unchanged,
    whatever the tagging. *)
Lemma tagWith_plain tag j : tagWith tag (plain j) = j.
Proof.
  induction j as [| | | | items IH | members IH] using json_nested_ind;
    simpl; try done.
  - f_equal. rewrite <- list_fmap_compose.
    rewrite <- (list_fmap_id items) at 2.
    apply Forall_fmap_ext_1. exact IH.
  - f_equal. rewrite <- list_fmap_compose.
    rewrite <- (list_fmap_id members) at 2.
    apply Forall_fmap_ext_1. eapply Forall_impl; [exact IH |].
    intros [k j] Hj. simpl in *. by rewrite Hj.
Qed.

Lemma plain_not_bigint j n : plain j <> VBigInt n.
Proof. by destruct j. Qed.

(** The encoder of the model is the walk for its own tagging. *)
Lemma tagBigInts_tagWith v :
  tagBigInts v
  = tagWith (fun n => JObject [(bigintTag, JString (bigintToString n))]) v.
Proof.
  induction v as [| | | | n | items IH | members IH] using value_nested_ind;
    simpl; try done.
  - f_equal. apply Forall_fmap_ext_1. exact IH.
  - f_equal. apply Forall_fmap_ext_1. eapply Forall_impl; [exact IH |].
    intros [k v] Hv. simpl in *. by rewrite Hv.
Qed.

(** The walks are inverse on values that keep clear of the tag key. *)
Lemma untag_tag v : tagFree v = true -> untagBigInts (tagBigInts v) = Some v.
Proof.
  induction v as [| | | | n | items IH | members IH] using value_nested_ind;
    simpl; try done.
  - intros _. by rewrite parseBigInt_bigintToString.
  - intros Hfree. rewrite mapM_fmap_Forall_Some; [done |].
    apply Forall_forall. intros v Hv.
    rewrite Forall_forall in IH. apply IH; [done |].
    rewrite forallb_forall in Hfree. apply Hfree. by apply list_elem_of_In.
  - intros Hfree. apply andb_prop in Hfree as [Htag Hfree].
    apply negb_true_iff, bool_decide_eq_false in Htag.
    rewrite member_fmap_None by done.
    rewrite mapM_fmap_Forall_Some; [done |].
    apply Forall_forall. intros [k v] Hkv. simpl.
    rewrite Forall_forall in IH. specialize (IH (k, v) Hkv). simpl in IH.
    rewrite IH; [done |].
    rewrite forallb_forall in Hfree. apply (Hfree (k, v)).
    by apply list_elem_of_In.
Qed.

End CodecFacts.

(* ===================================================================== *)
(** ** Properties of utils.ts *)
(* ===================================================================== *)

Section Registry.

Implicit Types (m : UtilsModule) (typePrefix : string).
Implicit Types (payloadCreator : AsyncThunkPayloadCreator).
Implicit Types (options : option AsyncThunkOptions).

Lemma aliased_spec m typePrefix :
  aliased m typePrefix = true <->
  is_Some (allAliases m !! typePrefix) \/ inherited typePrefix = true.
Proof.
  unfold aliased, get.
  destruct (allAliases m !! typePrefix) as [h |] eqn:Hm.
  - split; [intros _; left; eauto | done].
  - destruct (inherited typePrefix); split; try done.
    + by right.
    + intros [[? [=]] | [=]].
Qed.

Lemma aliased_own m typePrefix :
  is_Some (allAliases m !! typePrefix) -> aliased m typePrefix = true.
Proof. intros H. apply aliased_spec. by left. Qed.

(** What a call that returns has done: the thunk was built, the alias
    stored, and the wrapped creator returned. *)
Lemma createBackgroundAsyncThunk_returns
    typePrefix payloadCreator options m creator m' :
  createBackgroundAsyncThunk typePrefix payloadCreator options m
    = (Return creator, m') ->
  aliased m typePrefix = false
  /\ creator =
       {| call := fun payload s =>
                    ({| type := typePrefix; payload := payload |}, s);
          creatorTypePrefix := typePrefix |}
  /\ m' =
       {| allAliases :=
            <[typePrefix :=
                fun action =>
                  createAsyncThunk typePrefix payloadCreator options
                    (payload action)]> (allAliases m);
          createAsyncThunkCalls := createAsyncThunkCalls m ++ [typePrefix] |}.
Proof.
  unfold createBackgroundAsyncThunk.
  destruct (aliased m typePrefix); [discriminate |].
  by intros [= <- <-].
Qed.

(** A type prefix that is neither registered nor an inherited name is
    accepted, and the call adds the one entry under it. *)
Lemma createBackgroundAsyncThunk_fresh typePrefix payloadCreator options m :
  allAliases m !! typePrefix = None ->
  inherited typePrefix = false ->
  exists creator m',
    createBackgroundAsyncThunk typePrefix payloadCreator options m
      = (Return creator, m')
    /\ is_Some (allAliases m' !! typePrefix)
    /\ dom (allAliases m') = {[typePrefix]} ∪ dom (allAliases m)
    /\ size (allAliases m') = S (size (allAliases m)).
Proof.
  intros Hnone Hinh. unfold createBackgroundAsyncThunk, aliased, get.
  rewrite Hnone, Hinh. eexists _, _. split; [done |]. simpl.
  split; [rewrite lookup_insert_eq; eauto |].
  split; [apply dom_insert_L | by apply map_size_insert_None].
Qed.

(** A second registration under the same type prefix throws and the first
    handler stays the one stored. *)
Lemma createBackgroundAsyncThunk_twice
    typePrefix payloadCreator1 options1 payloadCreator2 options2 m creator m' :
  createBackgroundAsyncThunk typePrefix payloadCreator1 options1 m
    = (Return creator, m') ->
  createBackgroundAsyncThunk typePrefix payloadCreator2 options2 m'
    = (Throw AliasRegisteredTwice, m')
  /\ allAliases m' !! typePrefix =
       Some (fun action =>
               createAsyncThunk typePrefix payloadCreator1 options1
                 (payload action)).
Proof.
  intros H. apply createBackgroundAsyncThunk_returns in H as (_ & _ & ->).
  unfold createBackgroundAsyncThunk. simpl.
  rewrite aliased_own by (simpl; rewrite lookup_insert_eq; eauto).
  split; [done | apply lookup_insert_eq].
Qed.

Lemma createBackgroundAsyncThunk_fresh_witness :
  exists creator m',
    createBackgroundAsyncThunk "accounts/addAccount"
      (fun _ => Resolves VNull) None initialModule = (Return creator, m')
    /\ is_Some (allAliases m' !! "accounts/addAccount")
    /\ dom (allAliases m')
       = {["accounts/addAccount"]} ∪ dom (allAliases initialModule)
    /\ size (allAliases m') = S (size (allAliases initialModule)).
Proof.
  exact (createBackgroundAsyncThunk_fresh "accounts/addAccount"
           (fun _ => Resolves VNull) None initialModule eq_refl eq_refl).
Defined.

Lemma createBackgroundAsyncThunk_twice_witness :
  let h1 := fun _ : value => Resolves (VNumber 1) in
  let h2 := fun _ : value => Resolves (VNumber 2) in
  let m' := (createBackgroundAsyncThunk "X" h1 None initialModule).2 in
  createBackgroundAsyncThunk "X" h2 None m' = (Throw AliasRegisteredTwice, m')
  /\ allAliases m' !! "X"
     = Some (fun action => createAsyncThunk "X" h1 None (payload action)).
Proof.
  exact (createBackgroundAsyncThunk_twice "X"
           (fun _ => Resolves (VNumber 1)) None
           (fun _ => Resolves (VNumber 2)) None initialModule _ _ eq_refl).
Defined.

End Registry.

Section Lifecycle.

(** The spec's two lifecycle orderings: an operation that resolves to 5,
    and one that throws "boom". *)
Example lifecycle_success :
  let m := (createBackgroundAsyncThunk "X" (fun _ => Resolves (VNumber 5))
              None initialModule).2 in
  exists handler : Action -> AsyncThunkAction,
    allAliases m !! "X" = Some handler
    /\ dispatched
         (handler {| type := "X"; payload := VString "arg" |}
            {| dispatched := []; operationCalls := [] |}).2
       = [ Pending "X" (VString "arg");
           Fulfilled "X" (VString "arg") (VNumber 5) ].
Proof. eexists. split; [apply lookup_insert_eq | reflexivity]. Qed.

Example lifecycle_failure :
  let m := (createBackgroundAsyncThunk "X" (fun _ => Throws (VString "boom"))
              None initialModule).2 in
  exists handler : Action -> AsyncThunkAction,
    allAliases m !! "X" = Some handler
    /\ dispatched
         (handler {| type := "X"; payload := VString "arg" |}
            {| dispatched := []; operationCalls := [] |}).2
       = [ Pending "X" (VString "arg");
           Rejected "X" (VString "arg") (VString "boom") ].
Proof. eexists. split; [apply lookup_insert_eq | reflexivity]. Qed.

(** C1 (as stated, refuted): with a skip condition in the options that
    signals skip, an invocation of the registered handler dispatches
    nothing: there is no Pending and no terminal action for it. *)
Lemma skipped_invocation_dispatches_nothing :
  let payloadCreator := fun _ : value => Resolves (VNumber 5) in
  let options := Some {| condition := Some (fun _ => false) |} in
  let m := (createBackgroundAsyncThunk "X" payloadCreator options
              initialModule).2 in
  let store := {| dispatched := []; operationCalls := [] |} in
  exists handler : Action -> AsyncThunkAction,
    allAliases m !! "X" = Some handler
    /\ dispatched (handler {| type := "X"; payload := VNull |} store).2 = []
    /\ dispatched (handler {| type := "X"; payload := VNull |} store).2
         <> [Pending "X" VNull; Fulfilled "X" VNull (VNumber 5)].
Proof.
  eexists. split; [apply lookup_insert_eq |]. by split.
Qed.

(** C1 (amended): for every type prefix wrapped by
    createBackgroundAsyncThunk and every invocation of the registered
    handler that the options' condition does not skip, the store sees
    exactly Pending followed by exactly one terminal action, Fulfilled with
    the result when the operation resolves and Rejected with the reason when
    it throws or rejects, and the handler's promise resolves, so the failure
    does not escape; a skipped invocation dispatches nothing. *)
Theorem registered_handler_lifecycle
    typePrefix payloadCreator options m creator m' :
  createBackgroundAsyncThunk typePrefix payloadCreator options m
    = (Return creator, m') ->
  exists handler : Action -> AsyncThunkAction,
    allAliases m' !! typePrefix = Some handler
    /\ forall arg s,
         let run := handler {| type := typePrefix; payload := arg |} s in
         (exists final, run.1 = Resolved final)
         /\ dispatched run.2 =
              (dispatched s ++
               (if skipped options arg then []
                else [ Pending typePrefix arg;
                       match payloadCreator arg with
                       | Resolves result => Fulfilled typePrefix arg result
                       | Throws reason => Rejected typePrefix arg reason
                       | Rejects reason => Rejected typePrefix arg reason
                       end ]))%list.
Proof.
  intros H. apply createBackgroundAsyncThunk_returns in H as (_ & _ & ->).
  eexists. split; [apply lookup_insert_eq |].
  intros arg s. simpl. unfold createAsyncThunk.
  destruct (skipped options arg); simpl.
  - split; [eauto | by rewrite app_nil_r].
  - split; [eauto |]. rewrite <- app_assoc. simpl.
    by destruct (payloadCreator arg).
Qed.

Lemma registered_handler_lifecycle_witness :
  exists handler : Action -> AsyncThunkAction,
    allAliases
      (createBackgroundAsyncThunk "X" (fun _ => Throws (VString "boom")) None
         initialModule).2 !! "X" = Some handler
    /\ forall arg s,
         let run := handler {| type := "X"; payload := arg |} s in
         (exists final, run.1 = Resolved final)
         /\ dispatched run.2 =
              (dispatched s ++
               [Pending "X" arg; Rejected "X" arg (VString "boom")])%list.
Proof.
  exact (registered_handler_lifecycle "X" (fun _ => Throws (VString "boom"))
           None initialModule _ _ eq_refl).
Defined.

(** C2 (evaluated at the failing input): the first registration under
    "constructor" is refused as a duplicate and nothing is stored. *)
Lemma first_registration_of_inherited_name_throws payloadCreator options :
  createBackgroundAsyncThunk "constructor" payloadCreator options
    initialModule
  = (Throw AliasRegisteredTwice, initialModule).
Proof. reflexivity. Qed.

(** C3: the action creator returned by createBackgroundAsyncThunk maps a
    payload to the plain object of the type prefix and that payload, and
    leaves the calling context as it was: no payload creator call is made
    and nothing is dispatched there. *)
Theorem action_creator_returns_plain_action
    typePrefix payloadCreator options m creator m' :
  createBackgroundAsyncThunk typePrefix payloadCreator options m
    = (Return creator, m') ->
  forall payload s,
    call creator payload s = ({| type := typePrefix; payload := payload |}, s).
Proof.
  intros H. by apply createBackgroundAsyncThunk_returns in H as (_ & -> & _).
Qed.

Lemma action_creator_returns_plain_action_witness :
  match
    (createBackgroundAsyncThunk "accounts/addAccount"
       (fun _ => Resolves VNull) None initialModule).1
  with
  | Return creator =>
      call creator (VString "0x0") {| dispatched := []; operationCalls := [] |}
      = ({| type := "accounts/addAccount"; payload := VString "0x0" |},
         {| dispatched := []; operationCalls := [] |})
  | Throw _ => False
  end.
Proof.
  exact (action_creator_returns_plain_action "accounts/addAccount"
           (fun _ => Resolves VNull) None initialModule _ _ eq_refl
           (VString "0x0") {| dispatched := []; operationCalls := [] |}).
Defined.

(** C9: a call with a type prefix that is already registered throws, and
    the module is left exactly as it was: no thunk was built and
    allAliases is the same map. *)
Theorem duplicate_registration_leaves_module_unchanged
    typePrefix payloadCreator options m :
  is_Some (allAliases m !! typePrefix) ->
  createBackgroundAsyncThunk typePrefix payloadCreator options m
    = (Throw AliasRegisteredTwice, m).
Proof.
  intros H. unfold createBackgroundAsyncThunk. by rewrite aliased_own.
Qed.

Lemma duplicate_registration_leaves_module_unchanged_witness :
  let m := (createBackgroundAsyncThunk "X" (fun _ => Resolves (VNumber 5))
              None initialModule).2 in
  is_Some (allAliases m !! "X")
  /\ createBackgroundAsyncThunk "X" (fun _ => Throws (VString "boom")) None m
     = (Throw AliasRegisteredTwice, m).
Proof.
  assert (Hreg : is_Some
            (allAliases
               (createBackgroundAsyncThunk "X"
                  (fun _ => Resolves (VNumber 5)) None initialModule).2
             !! "X")).
  { eexists. reflexivity. }
  split; [exact Hreg |].
  exact (duplicate_registration_leaves_module_unchanged "X"
           (fun _ => Throws (VString "boom")) None _ Hreg).
Defined.

End Lifecycle.

Section Adaptation.

Context {V : Type}.
Implicit Types (keysMap : gmap string (option (KeyAdjustment V))).
Implicit Types (item : list (string * V)) (key : string).

Lemma adaptKey_defined keysMap item previousValue key keyAdjustment :
  keysMap !! key = Some (Some keyAdjustment) ->
  adaptKey keysMap item previousValue key
  = Return (<[readableName keyAdjustment :=
                transformer keyAdjustment (member key item)]> previousValue).
Proof. intros H. unfold adaptKey, has, get. by rewrite H. Qed.

Lemma adaptKey_skips keysMap item previousValue key :
  adaptedName keysMap key = None ->
  inheritedOnly keysMap key = false ->
  adaptKey keysMap item previousValue key = Return previousValue.
Proof.
  unfold adaptedName, inheritedOnly, adaptKey, has, get.
  destruct (keysMap !! key) as [[a |] |]; try done.
  by intros _ ->.
Qed.

Lemma adaptKey_inherited keysMap item previousValue key :
  inheritedOnly keysMap key = true ->
  adaptKey keysMap item previousValue key = Throw TypeError.
Proof.
  unfold inheritedOnly, adaptKey, has, get.
  destruct (keysMap !! key); [done |]. by intros ->.
Qed.

(** The reduction over a list of keys none of which is found by
    inheritance alone, when no readable name is written twice. *)
Lemma adapt_keys keysMap item (keys : list string) :
  forallb (fun key => negb (inheritedOnly keysMap key)) keys = true ->
  NoDup (omap (adaptedName keysMap) keys) ->
  exists result,
    fold_left
      (fun previousValue key =>
         match previousValue with
         | Throw e => Throw e
         | Return previousValue => adaptKey keysMap item previousValue key
         end) keys (Return ∅) = Return result
    /\ forall name s,
         result !! name = Some s <->
         exists key keyAdjustment,
           key ∈ keys
           /\ keysMap !! key = Some (Some keyAdjustment)
           /\ readableName keyAdjustment = name
           /\ s = transformer keyAdjustment (member key item).
Proof.
  induction keys as [| key keys IH] using rev_ind.
  - intros _ _. exists ∅. split; [done |]. intros name s.
    rewrite lookup_empty. split; [done |].
    intros (k & a & Hk & _). by apply elem_of_nil in Hk.
  - rewrite forallb_app, omap_app, fold_left_app. simpl.
    intros [Hinh Hkey]%andb_prop [Hnd [Hfresh _]]%NoDup_app.
    rewrite andb_true_r in Hkey. apply negb_true_iff in Hkey.
    destruct (IH Hinh Hnd) as (result & -> & Hresult). clear IH.
    destruct (adaptedName keysMap key) as [name' |] eqn:Hname.
    + unfold adaptedName in Hname.
      destruct (keysMap !! key) as [[a |] |] eqn:Hm; try done.
      injection Hname as <-.
      rewrite (adaptKey_defined _ _ _ _ _ Hm). eexists. split; [done |].
      intros name s. destruct (decide (readableName a = name)) as [<- | Hne].
      * rewrite lookup_insert_eq. split.
        -- intros [= <-]. exists key, a. rewrite elem_of_app, list_elem_of_singleton.
           eauto.
        -- intros (k & a' & Hk & Hk' & Heq & ->).
           apply elem_of_app in Hk as [Hk | ->%list_elem_of_singleton].
           ++ exfalso. apply (Hfresh (readableName a)).
              ** apply list_elem_of_omap. exists k. split; [done |].
                 unfold adaptedName. by rewrite Hk', Heq.
              ** left.
           ++ by simplify_eq.
      * rewrite lookup_insert_ne by done. rewrite Hresult. split.
        -- intros (k & a' & Hk & Hrest). exists k, a'.
           rewrite elem_of_app. eauto.
        -- intros (k & a' & Hk & Hk' & Heq & ->).
           apply elem_of_app in Hk as [Hk | ->%list_elem_of_singleton].
           ++ eauto 6.
           ++ by simplify_eq.
    + rewrite adaptKey_skips by done. eexists. split; [done |].
      intros name s. rewrite Hresult. split.
      * intros (k & a' & Hk & Hrest). exists k, a'. rewrite elem_of_app. eauto.
      * intros (k & a' & Hk & Hk' & Heq & ->).
        apply elem_of_app in Hk as [Hk | ->%list_elem_of_singleton].
        -- eauto 6.
        -- unfold adaptedName in Hname. by rewrite Hk' in Hname.
Qed.

End Adaptation.

Section AdaptForUI.

(** C10 (as stated, refuted): two entries of the keys map with the same
    readable name, both matched by the item: the result holds under that
    name what the entry of the later key gives, not what the entry of the
    earlier key gives. *)
Lemma shared_readable_name_keeps_last_key :
  let amount := fun label : string =>
    {| readableName := "Amount";
       transformer := fun _ : option Z => label;
       detailTransformer := fun _ : option Z => label |} in
  let keysMap : gmap string (option (KeyAdjustment Z)) :=
    {[ "value" := Some (amount "of value");
       "gasPrice" := Some (amount "of gasPrice") ]} in
  let item := [("value", 1%Z); ("gasPrice", 2%Z)] in
  exists result,
    adaptForUI keysMap item = Return result
    /\ ("value", 1%Z) ∈ item
    /\ keysMap !! "value" = Some (Some (amount "of value"))
    /\ result !! readableName (amount "of value") = Some "of gasPrice"
    /\ result !! readableName (amount "of value")
         <> Some (transformer (amount "of value") (Some 1%Z)).
Proof.
  eexists. split; [reflexivity |].
  split; [left |]. split; [reflexivity |]. split; [reflexivity |].
  vm_compute. discriminate.
Qed.

(** C10 (amended): when the matched entries of the keys map have pairwise
    distinct readable names, adaptForUI returns an object whose keys are
    exactly the readable names of the defined entries whose key is a key of
    the item, each mapped to that entry's transformer applied to the item's
    value at that key; keys of the item without a defined entry add
    nothing. An item lists each of its keys once. Item keys that the keys
    map holds only by inheritance from Object.prototype are left out of the
    statement. *)
Theorem adaptForUI_adapts {V} (keysMap : gmap string (option (KeyAdjustment V)))
    (item : list (string * V)) :
  NoDup (Object_keys item) ->
  forallb (fun key => negb (inheritedOnly keysMap key)) (Object_keys item)
    = true ->
  NoDup (adaptedNames keysMap item) ->
  exists result,
    adaptForUI keysMap item = Return result
    /\ forall name s,
         result !! name = Some s <->
         exists key v keyAdjustment,
           (key, v) ∈ item
           /\ keysMap !! key = Some (Some keyAdjustment)
           /\ readableName keyAdjustment = name
           /\ s = transformer keyAdjustment (Some v).
Proof.
  intros Hkeys Hinh Hnames.
  destruct (adapt_keys keysMap item _ Hinh Hnames) as (result & Hrun & Hres).
  exists result. split; [exact Hrun |].
  intros name s. rewrite Hres. split.
  - intros (key & a & Hkey & Hm & Hname & ->).
    apply list_elem_of_fmap in Hkey as ([k v] & -> & Hkv). simpl in *.
    exists k, v, a. by rewrite (member_NoDup _ _ _ Hkeys Hkv).
  - intros (key & v & a & Hkv & Hm & Hname & ->).
    exists key, a. rewrite (member_NoDup _ _ _ Hkeys Hkv).
    split; [| done]. apply list_elem_of_fmap. by exists (key, v).
Qed.

Lemma adaptForUI_adapts_witness :
  let keysMap : gmap string (option (KeyAdjustment Z)) :=
    {[ "blockHeight" :=
         Some {| readableName := "Block Height";
                 transformer := fun _ => "height";
                 detailTransformer := fun _ => "" |};
       "timestamp" := None ]} in
  let item := [("hash", 7%Z); ("blockHeight", 12%Z); ("timestamp", 0%Z)] in
  exists result,
    adaptForUI keysMap item = Return result
    /\ forall name s,
         result !! name = Some s <->
         exists key v keyAdjustment,
           (key, v) ∈ item
           /\ keysMap !! key = Some (Some keyAdjustment)
           /\ readableName keyAdjustment = name
           /\ s = transformer keyAdjustment (Some v).
Proof.
  apply adaptForUI_adapts.
  - apply (bool_decide_unpack _). vm_compute. exact I.
  - vm_compute. reflexivity.
  - apply (bool_decide_unpack _). vm_compute. exact I.
Defined.

End AdaptForUI.

(* ===================================================================== *)
(** ** Round trip through the codec *)
(* ===================================================================== *)

Section RoundTrip.

(** A mapping that holds a decimal numeral under the tag key encodes to the
    very text of the integer: encoding is not injective. *)
Lemma encodeJSON_collision n :
  encodeJSON (VObject [(bigintTag, VString (bigintToString n))])
  = encodeJSON (VBigInt n).
Proof. reflexivity. Qed.

(** The collision does not come from the choice of tag: however an
    extended-precision integer is written as a JSON document, that document
    is itself a value, and the two encode alike. *)
Lemma any_tagging_collides (tag : Z -> json) n :
  tagWith tag (plain (tag n)) = tagWith tag (VBigInt n)
  /\ plain (tag n) <> VBigInt n.
Proof. split; [apply tagWith_plain | apply plain_not_bigint]. Qed.

(** Hence no decoder at all inverts the encoder on every value. *)
Lemma no_decoder_inverts_encodeJSON (decode : text -> Completion value) :
  ~ forall v, decode (encodeJSON v) = Return v.
Proof.
  intros Hinv.
  pose proof (Hinv (VBigInt 10)) as H1.
  rewrite <- encodeJSON_collision, Hinv in H1. discriminate.
Qed.

(** C4 (as stated, refuted): a string-keyed mapping whose key is the tag
    key decodes to an extended-precision integer, not to the mapping. *)
Lemma mapping_with_tag_key_decodes_to_bigint :
  decodeJSON (encodeJSON (VObject [(bigintTag, VString "10")]))
    = Return (VBigInt 10)
  /\ decodeJSON (encodeJSON (VObject [(bigintTag, VString "10")]))
     <> Return (VObject [(bigintTag, VString "10")]).
Proof. split; [reflexivity | discriminate]. Qed.

(** C4 (amended): for every value composed of null, booleans, numbers,
    strings, extended-precision integers, sequences and string-keyed
    mappings, arbitrarily nested, in which no mapping has the tag key among
    its keys, decode(encode(v)) is v; an encoded extended-precision integer
    decodes back to itself and not to what the plain number of the same
    magnitude decodes to. *)
Theorem decodeJSON_encodeJSON v :
  tagFree v = true ->
  decodeJSON (encodeJSON v) = Return v
  /\ forall n, v = VBigInt n ->
       decodeJSON (encodeJSON v) <> decodeJSON (encodeJSON (VNumber n)).
Proof.
  intros Hfree. unfold decodeJSON, encodeJSON.
  rewrite (untag_tag v Hfree). split; [done |].
  intros n ->. discriminate.
Qed.

Lemma decodeJSON_encodeJSON_witness :
  tagFree (VObject [("a", VBigInt 10)]) = true
  /\ decodeJSON (encodeJSON (VObject [("a", VBigInt 10)]))
     = Return (VObject [("a", VBigInt 10)])
  /\ decodeJSON (encodeJSON (VBigInt 10))
     <> decodeJSON (encodeJSON (VNumber 10)).
Proof.
  split; [reflexivity |]. split.
  - exact (proj1 (decodeJSON_encodeJSON (VObject [("a", VBigInt 10)])
                    eq_refl)).
  - exact (proj2 (decodeJSON_encodeJSON (VBigInt 10) eq_refl) 10%Z eq_refl).
Defined.

End RoundTrip.

(* ===================================================================== *)
(** ** Properties of main.ts *)
(* ===================================================================== *)

Section Store.

Context (rootReducer : value -> ReduxAction -> value).
Context (encodeJSON : value -> text).
Context (env : Env).

Local Abbreviation dispatchOne := (storeDispatch rootReducer encodeJSON env).
Local Abbreviation writing := (decide (WRITE_REDUX_CACHE env = Some "true")).

(** One dispatch through the cache middleware, spelled out. *)
Lemma storeDispatch_unfold action w :
  dispatchOne action w =
  (action,
   {| state := rootReducer (state w) action;
      dispatchLog := dispatchLog w ++ [action];
      pendingWrites :=
        pendingWrites w ++
        (if writing
         then [("state", encodeJSON (rootReducer (state w) action))]
         else []) |}).
Proof.
  unfold storeDispatch, reduxCache, baseDispatch, storageLocalSet.
  destruct writing; simpl; [done |]. by rewrite app_nil_r.
Qed.

Lemma dispatchAll_cons action actions w :
  dispatchAll rootReducer encodeJSON env (action :: actions) w
  = dispatchAll rootReducer encodeJSON env actions (dispatchOne action w).2.
Proof. reflexivity. Qed.

Lemma dispatchAll_writes actions : forall w,
  length (pendingWrites (dispatchAll rootReducer encodeJSON env actions w))
  = length (pendingWrites w) + (if writing then length actions else 0).
Proof.
  induction actions as [| action actions IH]; intros w.
  - simpl. destruct writing; lia.
  - rewrite dispatchAll_cons, IH, storeDispatch_unfold. simpl.
    rewrite length_app. destruct writing; simpl; lia.
Qed.

End Store.

Section Orchestration.

Context (rootReducer : value -> ReduxAction -> value).
Context (encodeJSON : value -> text).
Context (decodeJSON : text -> Completion value).
Context (env : Env).

(** C5: on a transaction event the orchestrator dispatches
    transactionConfirmed(transaction) when the transaction has a truthy
    blockHash and a defined gasUsed field and transactionSeen(transaction)
    otherwise, and in both cases activityEncountered(payload) after it. *)
Theorem transaction_event_dispatches payload w :
  dispatchLog (onTransaction rootReducer encodeJSON env payload w) =
  (dispatchLog w ++
   [ if truthyBlockHash (transaction payload)
        && definedGasUsed (transaction payload)
     then transactionConfirmed (transaction payload)
     else transactionSeen (transaction payload);
     activityEncountered payload ])%list.
Proof.
  unfold onTransaction.
  destruct (truthyBlockHash _ && definedGasUsed _);
    rewrite !storeDispatch_unfold; simpl; by rewrite <- app_assoc.
Qed.

(** The end of the chain alone: an action handed to the reduxCache
    middleware issues no blob-store write when WRITE_REDUX_CACHE is not
    "true"; when it is, it issues exactly one write, of the encoded state
    the reducers left, under the key "state", left pending; over a run of
    such actions the writes number as many as the actions, or none. *)
Lemma reduxCache_writes_after_reducers :
  (forall action w,
     let after := storeDispatch rootReducer encodeJSON env action w in
     after.1 = action
     /\ state after.2 = rootReducer (state w) action
     /\ pendingWrites after.2 =
          (pendingWrites w ++
           (if decide (WRITE_REDUX_CACHE env = Some "true")
            then [("state", encodeJSON (rootReducer (state w) action))]
            else []))%list)
  /\ (forall actions w,
        length (pendingWrites
                  (dispatchAll rootReducer encodeJSON env actions w))
        = length (pendingWrites w)
          + (if decide (WRITE_REDUX_CACHE env = Some "true")
             then length actions else 0)).
Proof.
  split.
  - intros action w. by rewrite storeDispatch_unfold.
  - intros actions w. apply dispatchAll_writes.
Qed.

(** C8 (amended): with every service created, the store is preloaded with
    the empty state when READ_REDUX_CACHE is not "true", and also when it is
    "true" and the blob store holds nothing, or a falsy value such as the
    empty string, under "state"; when it is "true" and a truthy snapshot is
    stored, the snapshot is decoded and preloaded if it decodes to a
    non-null object, and otherwise creation throws. *)
Theorem create_preloads_snapshot storage services :
  allCreated services ->
  (READ_REDUX_CACHE env <> Some "true" ->
     create decodeJSON env storage services
     = Return {| preloadedState := VObject [] |})
  /\ (READ_REDUX_CACHE env = Some "true" ->
      (storage !! "state" = None ->
         create decodeJSON env storage services
         = Return {| preloadedState := VObject [] |})
      /\ forall snapshot,
           storage !! "state" = Some snapshot ->
           (truthyText snapshot = false ->
              create decodeJSON env storage services
              = Return {| preloadedState := VObject [] |})
           /\ (truthyText snapshot = true ->
               match decodeJSON snapshot with
               | Return restoredState =>
                   if isNonNullObject restoredState
                   then create decodeJSON env storage services
                        = Return {| preloadedState := restoredState |}
                   else create decodeJSON env storage services
                        = Throw UnexpectedPersistedState
               | Throw e =>
                   create decodeJSON env storage services = Throw e
               end)).
Proof.
  intros (Hp & Hc & Hi & Hk & Hn).
  unfold create, savedReduxState. rewrite Hp, Hc, Hi, Hk, Hn.
  split.
  - intros Hoff. by rewrite decide_False.
  - intros Hon. rewrite decide_True by done. split.
    + by intros ->.
    + intros snapshot ->. split.
      * by intros ->.
      * intros ->. destruct (decodeJSON snapshot) as [v | e]; [| done].
        by destruct (isNonNullObject v).
Qed.

End Orchestration.

(** The spec's two transaction events: a block hash with gas used 21000 is
    confirmed, an undefined block hash is seen. *)
Example transaction_event_confirmed rootReducer encodeJSON env w :
  let t := {| hash := "0x1"; blockHash := Val "0xb"; gasUsed := Val 21000%Z |} in
  let payload := {| transaction := t; forAccounts := [] |} in
  dispatchLog (onTransaction rootReducer encodeJSON env payload w)
  = (dispatchLog w ++ [transactionConfirmed t; activityEncountered payload])%list.
Proof.
  intros t payload. unfold onTransaction.
  cbn [transaction truthyBlockHash definedGasUsed blockHash gasUsed
       truthyString andb payload t].
  rewrite !storeDispatch_unfold. simpl. by rewrite <- app_assoc.
Qed.

Example transaction_event_seen rootReducer encodeJSON env w :
  let t := {| hash := "0x1"; blockHash := Undef; gasUsed := Val 21000%Z |} in
  let payload := {| transaction := t; forAccounts := [] |} in
  dispatchLog (onTransaction rootReducer encodeJSON env payload w)
  = (dispatchLog w ++ [transactionSeen t; activityEncountered payload])%list.
Proof.
  intros t payload. unfold onTransaction.
  cbn [transaction truthyBlockHash definedGasUsed blockHash gasUsed
       truthyString andb payload t].
  rewrite !storeDispatch_unfold. simpl. by rewrite <- app_assoc.
Qed.

Section Restore.

(** C8 (as stated, refuted): READ_REDUX_CACHE is "true" and the blob store
    holds the empty string under "state", which does not decode; creation
    does not fail but preloads the empty state. *)
Lemma empty_snapshot_falls_back_to_empty_state :
  let env := {| WRITE_REDUX_CACHE := None; READ_REDUX_CACHE := Some "true" |} in
  let storage : gmap string text := {[ "state" := NotJSON "" ]} in
  let services :=
    {| preferenceService := Return tt; chainService := Return tt;
       indexingService := Return tt; keyringService := Return tt;
       nameService := Return tt |} in
  storage !! "state" = Some (NotJSON "")
  /\ Codec.decodeJSON (NotJSON "") = Throw ParseError
  /\ create Codec.decodeJSON env storage services
     = Return {| preloadedState := VObject [] |}.
Proof. split; [reflexivity |]. split; reflexivity. Qed.

Lemma create_preloads_snapshot_witness :
  let env := {| WRITE_REDUX_CACHE := None; READ_REDUX_CACHE := Some "true" |} in
  let snapshot := Codec.encodeJSON (VObject [("ui", VObject [])]) in
  let storage : gmap string text := {[ "state" := snapshot ]} in
  let services :=
    {| preferenceService := Return tt; chainService := Return tt;
       indexingService := Return tt; keyringService := Return tt;
       nameService := Return tt |} in
  allCreated services
  /\ create Codec.decodeJSON env storage services
     = Return {| preloadedState := VObject [("ui", VObject [])] |}.
Proof.
  intros env snapshot storage services.
  assert (Hall : allCreated services) by (repeat split).
  split; [exact Hall |].
  exact (proj2 (proj2 (proj2 (create_preloads_snapshot Codec.decodeJSON env
                                storage services Hall) eq_refl)
                  snapshot eq_refl) eq_refl).
Defined.

End Restore.

(* ===================================================================== *)
(** ** Further properties of utils.ts *)
(* ===================================================================== *)

Section SlicesLoading.

Implicit Types (m : UtilsModule) (r : Registration).
Implicit Types (registrations : list Registration).

(** A type prefix the guard lets through. *)
Lemma aliased_false m typePrefix :
  aliased m typePrefix = false <->
  allAliases m !! typePrefix = None /\ inherited typePrefix = false.
Proof.
  unfold aliased, get.
  destruct (allAliases m !! typePrefix); [by split; [| intros [? ?]] |].
  destruct (inherited typePrefix); split; try done. by intros [_ ?].
Qed.

(** One call, whether it returns or throws, keeps every stored alias. *)
Lemma createBackgroundAsyncThunk_keeps
    typePrefix payloadCreator options m key handler :
  allAliases m !! key = Some handler ->
  allAliases
    (createBackgroundAsyncThunk typePrefix payloadCreator options m).2
    !! key = Some handler.
Proof.
  intros Hkey. unfold createBackgroundAsyncThunk.
  destruct (aliased m typePrefix) eqn:Haliased; [done |].
  apply aliased_false in Haliased as [Hnone _]. simpl.
  rewrite lookup_insert_ne; [done |]. congruence.
Qed.

Lemma registerAll_cons r registrations m :
  registerAll (r :: registrations) m =
  match
    createBackgroundAsyncThunk (regTypePrefix r) (regPayloadCreator r)
      (regOptions r) m
  with
  | (Return _, m) => registerAll registrations m
  | (Throw e, m) => (Throw e, m)
  end.
Proof. reflexivity. Qed.

(** The same over a run of calls. *)
Lemma registerAll_keeps_aliases_step registrations m key handler :
  allAliases m !! key = Some handler ->
  allAliases (registerAll registrations m).2 !! key = Some handler.
Proof.
  revert m. induction registrations as [| r registrations IH]; intros m Hkey.
  - exact Hkey.
  - rewrite registerAll_cons.
    pose proof (createBackgroundAsyncThunk_keeps (regTypePrefix r)
                  (regPayloadCreator r) (regOptions r) m key handler Hkey)
      as Hkept.
    destruct (createBackgroundAsyncThunk _ _ _ m) as [[creator | e] m1];
      simpl in *; auto.
Qed.

End SlicesLoading.

Section SlicesLoaded.

Set Warnings "-clear-no-such-hyp".

Implicit Types (m : UtilsModule) (r : Registration).
Implicit Types (registrations : list Registration).

Local Abbreviation fresh m r :=
  (allAliases m !! regTypePrefix r = None
   /\ inherited (regTypePrefix r) = false).

(** X3: the registry only grows. Whatever calls of
    createBackgroundAsyncThunk are made, and whether they return or throw,
    every alias that was stored is still stored afterwards, with the
    handler it had. *)
Theorem registerAll_only_grows registrations m :
  allAliases m ⊆ allAliases (registerAll registrations m).2.
Proof.
  apply map_subseteq_spec. intros key handler.
  apply registerAll_keeps_aliases_step.
Qed.

(** X4: loading a list of registrations goes through without a throw
    exactly when their type prefixes are pairwise distinct and each of them
    is neither stored already nor a name inherited from Object.prototype. *)
Theorem registerAll_returns_iff registrations m :
  (registerAll registrations m).1 = Return tt <->
  NoDup (regTypePrefix <$> registrations)
  /\ Forall (fun r => allAliases m !! regTypePrefix r = None
                      /\ inherited (regTypePrefix r) = false) registrations.
Proof.
  revert m. induction registrations as [| r registrations IH]; intros m.
  - simpl. split; [intros _; split; constructor | done].
  - rewrite registerAll_cons, fmap_cons, NoDup_cons, Forall_cons.
    unfold createBackgroundAsyncThunk.
    destruct (aliased m (regTypePrefix r)) eqn:Haliased.
    + split; [done |]. intros (_ & Hfresh & _).
      apply aliased_false in Hfresh. congruence.
    + apply aliased_false in Haliased. rewrite IH. simpl.
      rewrite !Forall_forall. split.
      * intros [Hnd Hall]. split; [split; [| done] |].
        -- intros Hin. apply list_elem_of_fmap in Hin as (r' & Heq & Hr').
           destruct (Hall r' Hr') as [Hnone _].
           rewrite <- Heq, lookup_insert_eq in Hnone. done.
        -- split; [done |]. intros r' Hr'.
           destruct (Hall r' Hr') as [Hnone Hinh]. split; [| done].
           apply lookup_insert_None in Hnone. tauto.
      * intros ([Hnotin Hnd] & _ & Hall). split; [done |].
        intros r' Hr'. destruct (Hall r' Hr') as [Hnone Hinh].
        split; [| done]. apply lookup_insert_None. split; [done |].
        intros Heq. apply Hnotin. apply list_elem_of_fmap. by exists r'.
Qed.

(** X5: when the loading goes through, the registry has gained exactly the
    loaded type prefixes, createAsyncThunk was called once for each of them
    in order, and every one of them is stored with the handler that runs
    its own thunk on the payload of the action. *)
Theorem registerAll_registers registrations m m' :
  registerAll registrations m = (Return tt, m') ->
  dom (allAliases m')
    = list_to_set (regTypePrefix <$> registrations) ∪ dom (allAliases m)
  /\ createAsyncThunkCalls m'
     = createAsyncThunkCalls m ++ (regTypePrefix <$> registrations)
  /\ forall r,
       r ∈ registrations ->
       allAliases m' !! regTypePrefix r
       = Some (fun action =>
                 createAsyncThunk (regTypePrefix r) (regPayloadCreator r)
                   (regOptions r) (payload action)).
Proof.
  revert m. induction registrations as [| r registrations IH]; intros m.
  - intros Hnil. injection Hnil as <-. simpl. split; [set_solver |].
    split; [by rewrite app_nil_r |]. intros r Hr. by apply elem_of_nil in Hr.
  - rewrite registerAll_cons.
    destruct (createBackgroundAsyncThunk _ _ _ m) as [[creator | e] m1]
      eqn:Hcall; [| discriminate].
    intros Hrest.
    apply createBackgroundAsyncThunk_returns in Hcall as (_ & _ & ->).
    assert (Hkept :
              allAliases m' !! regTypePrefix r
              = Some (fun action =>
                        createAsyncThunk (regTypePrefix r)
                          (regPayloadCreator r) (regOptions r)
                          (payload action))).
    { change m' with (Return tt, m').2. rewrite <- Hrest.
      apply registerAll_keeps_aliases_step. apply lookup_insert_eq. }
    destruct (IH _ Hrest) as (Hdom & Hcalls & Hhandlers). simpl in *.
    split; [| split].
    + rewrite Hdom, dom_insert_L. set_solver.
    + by rewrite Hcalls, <- app_assoc.
    + intros r' [-> | Hr']%elem_of_cons; [exact Hkept | by apply Hhandlers].
Qed.

Lemma registerAll_registers_witness :
  let unlock :=
    {| regTypePrefix := "keyrings/unlock";
       regPayloadCreator := fun _ => Resolves VNull;
       regOptions := None |} in
  let addAccount :=
    {| regTypePrefix := "accounts/addAccount";
       regPayloadCreator := fun _ => Resolves VNull;
       regOptions := None |} in
  let m' := (registerAll [unlock; addAccount] initialModule).2 in
  dom (allAliases m')
    = list_to_set ["keyrings/unlock"; "accounts/addAccount"]
      ∪ dom (allAliases initialModule)
  /\ createAsyncThunkCalls m' = ["keyrings/unlock"; "accounts/addAccount"]
  /\ forall r,
       r ∈ [unlock; addAccount] ->
       allAliases m' !! regTypePrefix r
       = Some (fun action =>
                 createAsyncThunk (regTypePrefix r) (regPayloadCreator r)
                   (regOptions r) (payload action)).
Proof.
  intros unlock addAccount m'.
  exact (registerAll_registers [unlock; addAccount] initialModule m' eq_refl).
Defined.

End SlicesLoaded.

Section AdaptationEdges.

Context {V : Type}.
Implicit Types (keysMap : gmap string (option (KeyAdjustment V))).
Implicit Types (item : list (string * V)) (key : string).

Local Abbreviation reducer keysMap item :=
  (fun (previousValue : Completion (gmap string string)) (key : string) =>
     match previousValue with
     | Throw e => Throw e
     | Return previousValue => adaptKey keysMap item previousValue key
     end).

Lemma adapt_after_throw keysMap item (keys : list string) e :
  fold_left (reducer keysMap item) keys (Throw e) = Throw e.
Proof. induction keys as [| key keys IH]; [done | exact IH]. Qed.

(** One round either writes at most one name or throws a TypeError, the
    latter exactly on a key found by inheritance alone. *)
Lemma adaptKey_cases keysMap item previousValue key :
  (inheritedOnly keysMap key = true
   /\ adaptKey keysMap item previousValue key = Throw TypeError)
  \/ (inheritedOnly keysMap key = false
      /\ exists next,
           adaptKey keysMap item previousValue key = Return next
           /\ forall name,
                next !! name =
                match adaptedValue keysMap item name key with
                | Some s => Some s
                | None => previousValue !! name
                end).
Proof.
  destruct (inheritedOnly keysMap key) eqn:Hinh.
  - left. split; [done |]. by apply adaptKey_inherited.
  - right. split; [done |]. unfold adaptedValue.
    destruct (keysMap !! key) as [[a |] |] eqn:Hm.
    + rewrite (adaptKey_defined _ _ _ _ _ Hm). eexists. split; [done |].
      intros name. destruct (decide (readableName a = name)) as [<- | Hne].
      * by rewrite lookup_insert_eq.
      * by rewrite lookup_insert_ne.
    + rewrite adaptKey_skips; [eauto | | done].
      unfold adaptedName. by rewrite Hm.
    + rewrite adaptKey_skips; [eauto | | done].
      unfold adaptedName. by rewrite Hm.
Qed.

Lemma adapt_run keysMap item (keys : list string) :
  match fold_left (reducer keysMap item) keys (Return ∅) with
  | Return result =>
      forallb (fun key => negb (inheritedOnly keysMap key)) keys = true
      /\ forall name,
           result !! name = last (omap (adaptedValue keysMap item name) keys)
  | Throw e =>
      e = TypeError
      /\ existsb (inheritedOnly keysMap) keys = true
  end.
Proof.
  induction keys as [| key keys IH] using rev_ind.
  - simpl. split; [done |]. intros name. apply lookup_empty.
  - rewrite fold_left_app, forallb_app, existsb_app. simpl.
    destruct (fold_left _ keys (Return ∅)) as [result | e].
    + destruct IH as [Hkeys Hresult]. rewrite Hkeys.
      destruct (adaptKey_cases keysMap item result key)
        as [[Hinh ->] | (Hinh & next & -> & Hnext)]; rewrite Hinh; simpl.
      * split; [done |]. apply orb_true_r.
      * split; [done |]. intros name. rewrite Hnext, omap_app. simpl.
        destruct (adaptedValue keysMap item name key).
        -- by rewrite last_snoc.
        -- by rewrite app_nil_r.
    + destruct IH as [-> Hkeys]. by rewrite Hkeys.
Qed.

End AdaptationEdges.

Section AdaptationResults.

(** X6: when the item has a key that the keys map holds only by
    inheritance from Object.prototype (such as "constructor" or
    "toString"), adaptForUI does not return a result: the call throws. *)
Theorem adaptForUI_inherited_key_does_not_return {V}
    (keysMap : gmap string (option (KeyAdjustment V)))
    (item : list (string * V)) key :
  key ∈ Object_keys item ->
  inheritedOnly keysMap key = true ->
  returned (adaptForUI keysMap item) = None.
Proof.
  intros Hkey Hinh. unfold adaptForUI.
  pose proof (adapt_run keysMap item (Object_keys item)) as Hrun.
  destruct (fold_left _ _ _) as [result | e]; [| done].
  destruct Hrun as [Hkeys _]. rewrite forallb_forall in Hkeys.
  apply list_elem_of_In in Hkey. apply Hkeys in Hkey.
  by rewrite Hinh in Hkey.
Qed.

Lemma adaptForUI_inherited_key_does_not_return_witness :
  let keysMap : gmap string (option (KeyAdjustment Z)) :=
    {[ "value" :=
         Some {| readableName := "Amount";
                 transformer := fun _ => "1 ETH";
                 detailTransformer := fun _ => "" |} ]} in
  returned (adaptForUI keysMap [("value", 1%Z); ("constructor", 0%Z)]) = None.
Proof.
  intros keysMap.
  apply (adaptForUI_inherited_key_does_not_return keysMap
           [("value", 1%Z); ("constructor", 0%Z)] "constructor").
  - apply (bool_decide_unpack _). vm_compute. exact I.
  - reflexivity.
Defined.

(** X7: when adaptForUI returns, what its result holds under a readable
    name is what the last key of the item whose defined entry has that name
    gives (the entry's transformer applied to the item's value at the key),
    and nothing if no key of the item has such an entry. *)
Theorem adaptForUI_last_key_wins {V}
    (keysMap : gmap string (option (KeyAdjustment V)))
    (item : list (string * V)) result :
  adaptForUI keysMap item = Return result ->
  forall name,
    result !! name
    = last (omap (adaptedValue keysMap item name) (Object_keys item)).
Proof.
  unfold adaptForUI.
  pose proof (adapt_run keysMap item (Object_keys item)) as Hrun.
  destruct (fold_left _ _ _) as [result' | e]; [| done].
  intros [= <-]. by destruct Hrun.
Qed.

Lemma adaptForUI_last_key_wins_witness :
  let amount := fun label : string =>
    {| readableName := "Amount";
       transformer := fun _ : option Z => label;
       detailTransformer := fun _ : option Z => label |} in
  let keysMap : gmap string (option (KeyAdjustment Z)) :=
    {[ "value" := Some (amount "of value");
       "gasPrice" := Some (amount "of gasPrice") ]} in
  let item := [("value", 1%Z); ("hash", 0%Z); ("gasPrice", 2%Z)] in
  adaptForUI keysMap item = Return {[ "Amount" := "of gasPrice" ]}
  /\ ({[ "Amount" := "of gasPrice" ]} : gmap string string) !! "Amount"
     = last (omap (adaptedValue keysMap item "Amount") (Object_keys item)).
Proof.
  intros amount keysMap item. split; [reflexivity |].
  exact (adaptForUI_last_key_wins keysMap item _ eq_refl "Amount").
Defined.

End AdaptationResults.

Section ActivityItemRows.

Context (convertToEth : option value -> string).
Context (numberToString : option value -> string).
Context (formatUnix : value -> string).

Local Abbreviation rows := (keysMap convertToEth numberToString formatUnix).

Lemma member_None {A} key (ms : list (string * A)) :
  member key ms = None <-> key ∉ ms.*1.
Proof.
  induction ms as [| [k a] ms IH]; simpl.
  - split; [intros _ H; inversion H | done].
  - rewrite not_elem_of_cons. destruct (decide (k = key)) as [-> |].
    + split; [done | by intros [? _]].
    + rewrite IH. split; [done | by intros [_ ?]].
Qed.

Lemma NoDup_omap_inj {A B} (f : A -> option B) (l : list A) :
  (forall x y b, x ∈ l -> y ∈ l -> f x = Some b -> f y = Some b -> x = y) ->
  NoDup l -> NoDup (omap f l).
Proof.
  induction l as [| x l IH]; intros Hinj Hnd; simpl; [constructor |].
  apply NoDup_cons in Hnd as [Hx Hnd].
  assert (Hrest : NoDup (omap f l)).
  { apply IH; [| done]. intros y z b Hy Hz. apply Hinj; by right. }
  destruct (f x) as [b |] eqn:Hfx; [| done].
  constructor; [| done]. intros (y & Hy & Hfy)%list_elem_of_omap.
  apply Hx. rewrite (Hinj x y b); [done | left | by right | done | done].
Qed.

(** The six entries of the exported map have six different readable
    names. *)
Lemma keysMap_names_differ key1 key2 name :
  adaptedName rows key1 = Some name ->
  adaptedName rows key2 = Some name ->
  key1 = key2.
Proof.
  unfold adaptedName.
  destruct (rows !! key1) as [[a1 |] |] eqn:H1; try done.
  destruct (rows !! key2) as [[a2 |] |] eqn:H2; try done.
  apply elem_of_list_to_map_2 in H1, H2.
  intros [= <-] [= Heq]. set_unfold.
  destruct_or!; simplify_eq/=; done.
Qed.

(** X8: for the exported keysMap the readable names never collide. For an
    activity item with fields of their declared types, whose keys are
    pairwise distinct and none of which is a name inherited from
    Object.prototype, adaptForUI returns, and under the readable name of
    each of the six entries the result holds that entry's transformer
    applied to the item's value at the entry's key when the item has the
    key, and nothing when it does not. *)
Theorem keysMap_rows (item : list (string * value)) :
  activityItemTyped item = true ->
  NoDup (Object_keys item) ->
  forallb (fun key => negb (inheritedOnly rows key)) (Object_keys item)
    = true ->
  exists result,
    adaptForUI rows item = Return result
    /\ forall key keyAdjustment,
         rows !! key = Some (Some keyAdjustment) ->
         result !! readableName keyAdjustment
         = (fun v => transformer keyAdjustment (Some v)) <$> member key item.
Proof.
  intros _ Hkeys Hinh.
  assert (Hnames : NoDup (omap (adaptedName rows) (Object_keys item))).
  { apply NoDup_omap_inj; [| done].
    intros key1 key2 name _ _. apply keysMap_names_differ. }
  destruct (adapt_keys rows item _ Hinh Hnames) as (result & Hrun & Hres).
  exists result. split; [exact Hrun |]. intros key a Hm.
  destruct (member key item) as [v |] eqn:Hmember; simpl.
  - apply Hres. exists key, a. rewrite Hmember. split; [| done].
    clear -Hmember. induction item as [| [k v'] item IH]; [done |].
    simpl in *. destruct (decide (k = key)) as [-> |]; [left | right; auto].
  - apply eq_None_not_Some. intros [s Hs].
    apply Hres in Hs as (key' & a' & Hkey' & Hm' & Hname & _).
    assert (key' = key) as ->.
    { apply (keysMap_names_differ key' key (readableName a'));
        unfold adaptedName; [by rewrite Hm' | by rewrite Hm, Hname]. }
    by apply member_None in Hmember.
Qed.

End ActivityItemRows.

Section ActivityItemRowsExample.

Lemma keysMap_rows_witness :
  let rows :=
    keysMap (fun _ => "1") (fun _ => "13000000") (fun _ => "01/01/2022") in
  let item :=
    [ ("hash", VString "0x1"); ("blockHeight", VNumber 13000000);
      ("value", VBigInt 1000000000000000000); ("gasPrice", VNull) ] in
  exists result,
    adaptForUI rows item = Return result
    /\ forall key keyAdjustment,
         rows !! key = Some (Some keyAdjustment) ->
         result !! readableName keyAdjustment
         = (fun v => transformer keyAdjustment (Some v)) <$> member key item.
Proof.
  intros rows item.
  apply (keysMap_rows (fun _ => "1") (fun _ => "13000000")
           (fun _ => "01/01/2022") item).
  - vm_compute. reflexivity.
  - apply (bool_decide_unpack _). vm_compute. exact I.
  - vm_compute. reflexivity.
Defined.

End ActivityItemRowsExample.

(* ===================================================================== *)
(** ** Further properties of main.ts *)
(* ===================================================================== *)

Section Sanitizer.

Lemma bigintFree_plain j : bigintFree (plain j) = true.
Proof.
  induction j as [| | | | items IH | members IH] using json_nested_ind;
    simpl; try done.
  - apply forallb_forall. intros v Hv%list_elem_of_In.
    apply list_elem_of_fmap in Hv as (j & -> & Hj).
    rewrite Forall_forall in IH. by apply IH.
  - apply forallb_forall. intros kv Hkv%list_elem_of_In.
    apply list_elem_of_fmap in Hkv as (kj & -> & Hkj).
    rewrite Forall_forall in IH. by apply (IH kj).
Qed.

Lemma plain_tagWith tag v : bigintFree v = true -> plain (tagWith tag v) = v.
Proof.
  induction v as [| | | | n | items IH | members IH] using value_nested_ind;
    simpl; try done.
  - intros Hfree. f_equal. rewrite <- list_fmap_compose.
    rewrite <- (list_fmap_id items) at 2. apply Forall_fmap_ext_1.
    rewrite Forall_forall in *. intros v Hv. simpl. apply IH; [done |].
    rewrite forallb_forall in Hfree. apply Hfree. by apply list_elem_of_In.
  - intros Hfree. f_equal. rewrite <- list_fmap_compose.
    rewrite <- (list_fmap_id members) at 2. apply Forall_fmap_ext_1.
    rewrite Forall_forall in *. intros [k v] Hkv. simpl. f_equal.
    apply (IH (k, v)); [done |].
    rewrite forallb_forall in Hfree. apply (Hfree (k, v)).
    by apply list_elem_of_In.
Qed.

(** The encoder of the codec model writes a value without
    extended-precision integers as the document it is. *)
Lemma encodeJSON_plain j : Codec.encodeJSON (plain j) = JSONText j.
Proof.
  unfold Codec.encodeJSON. by rewrite tagBigInts_tagWith, tagWith_plain.
Qed.

(** X9: whatever the encoder, what the devtools sanitizer returns holds no
    extended-precision integer at any depth: it is directly
    JSON-serializable. *)
Theorem devToolsSanitizer_serializable (encodeJSON : value -> text) input out :
  devToolsSanitizer encodeJSON input = Return out ->
  bigintFree out = true.
Proof.
  unfold devToolsSanitizer, JSON_parse.
  destruct input; simpl; try (by intros [= <-]);
    destruct (encodeJSON _); try done; intros [= <-]; apply bigintFree_plain.
Qed.

Lemma devToolsSanitizer_serializable_witness :
  devToolsSanitizer Codec.encodeJSON (VObject [("balance", VBigInt 10)])
    = Return (VObject [("balance", VObject [(bigintTag, VString "10")])])
  /\ bigintFree (VObject [("balance", VObject [(bigintTag, VString "10")])])
     = true.
Proof.
  split; [reflexivity |].
  exact (devToolsSanitizer_serializable Codec.encodeJSON
           (VObject [("balance", VBigInt 10)]) _ eq_refl).
Defined.

(** X10: with an encoder that writes values without extended-precision
    integers as the documents they are, the devtools sanitizer returns such
    a value unchanged: only extended-precision integers are rewritten. *)
Theorem devToolsSanitizer_keeps_plain (encodeJSON : value -> text) v :
  (forall j, encodeJSON (plain j) = JSONText j) ->
  bigintFree v = true ->
  devToolsSanitizer encodeJSON v = Return v.
Proof.
  intros Hencode Hfree. unfold devToolsSanitizer.
  destruct (typeof v) eqn:Htype; try done.
  - rewrite <- (plain_tagWith (fun _ => JNull) v Hfree) at 1.
    rewrite Hencode. simpl. by rewrite plain_tagWith.
  - by destruct v.
Qed.

Lemma devToolsSanitizer_keeps_plain_witness :
  devToolsSanitizer Codec.encodeJSON
    (VObject [("accounts", VArray [VString "0x0"; VNull])])
  = Return (VObject [("accounts", VArray [VString "0x0"; VNull])]).
Proof.
  exact (devToolsSanitizer_keeps_plain Codec.encodeJSON
           (VObject [("accounts", VArray [VString "0x0"; VNull])])
           encodeJSON_plain eq_refl).
Defined.

End Sanitizer.

Section CachedStore.

Context (rootReducer : value -> ReduxAction -> value).
Context (encodeJSON : value -> text).
Context (decodeJSON : text -> Completion value).
Context (env : Env).

Local Abbreviation writing := (decide (WRITE_REDUX_CACHE env = Some "true")).

Lemma dispatchAll_snoc actions action w :
  dispatchAll rootReducer encodeJSON env (actions ++ [action]) w
  = (storeDispatch rootReducer encodeJSON env action
       (dispatchAll rootReducer encodeJSON env actions w)).2.
Proof. unfold dispatchAll. by rewrite fold_left_app. Qed.

(** Over a run of actions handed to reduxCache the state is the reducers'
    fold over the actions and the dispatch log gains exactly the actions,
    whatever the write flag; every write issued is under the key
    "state". *)
Lemma dispatchAll_reduces actions w :
  state (dispatchAll rootReducer encodeJSON env actions w) = fold_left rootReducer actions (state w)
  /\ dispatchLog (dispatchAll rootReducer encodeJSON env actions w) = dispatchLog w ++ actions
  /\ exists writes,
       pendingWrites (dispatchAll rootReducer encodeJSON env actions w) = pendingWrites w ++ writes
       /\ Forall (fun write => write.1 = "state") writes.
Proof.
  induction actions as [| action actions IH] using rev_ind.
  - simpl. split; [done |]. split; [by rewrite app_nil_r |].
    exists []. by rewrite app_nil_r.
  - destruct IH as (Hstate & Hlog & writes & Hwrites & Hkeys).
    rewrite dispatchAll_snoc, storeDispatch_unfold. simpl.
    rewrite fold_left_app, Hstate, Hlog, Hwrites. simpl.
    split; [done |]. split; [by rewrite app_assoc |].
    eexists. rewrite <- app_assoc. split; [done |].
    apply Forall_app. split; [done |]. destruct writing; by repeat constructor.
Qed.

(** With WRITE_REDUX_CACHE "true", after a run of at least one action
    handed to reduxCache the latest write issued is the encoding of the
    state the store is in. *)
Lemma cache_holds_current_state actions w :
  WRITE_REDUX_CACHE env = Some "true" ->
  actions <> [] ->
  last (pendingWrites (dispatchAll rootReducer encodeJSON env actions w))
  = Some ("state", encodeJSON (state (dispatchAll rootReducer encodeJSON env actions w))).
Proof.
  intros Hon Hactions.
  destruct actions as [| action actions _] using rev_ind; [done |].
  rewrite dispatchAll_snoc, storeDispatch_unfold. simpl.
  rewrite decide_True by done. by rewrite last_snoc.
Qed.

(** X13: what the cache wrote last is what a restart restores. With both
    flags "true", all services created, and a codec that round-trips the
    store's state to a non-empty text, creation with the latest write of a
    run in the blob store preloads exactly the state the run ended in,
    provided that state is a non-null object. *)
Theorem cached_state_is_restored actions w storage services key snapshot :
  WRITE_REDUX_CACHE env = Some "true" ->
  READ_REDUX_CACHE env = Some "true" ->
  actions <> [] ->
  allCreated services ->
  truthyText (encodeJSON (state (dispatchAll rootReducer encodeJSON env actions w))) = true ->
  decodeJSON (encodeJSON (state (dispatchAll rootReducer encodeJSON env actions w)))
    = Return (state (dispatchAll rootReducer encodeJSON env actions w)) ->
  isNonNullObject (state (dispatchAll rootReducer encodeJSON env actions w)) = true ->
  last (pendingWrites (dispatchAll rootReducer encodeJSON env actions w)) = Some (key, snapshot) ->
  create decodeJSON env (<[key := snapshot]> storage) services
  = Return {| preloadedState := state (dispatchAll rootReducer encodeJSON env actions w) |}.
Proof.
  intros Hwrite Hread Hactions (Hp & Hc & Hi & Hk & Hn) Htruthy Hdecode
    Hobject Hlast.
  destruct actions as [| action actions _] using rev_ind; [done |].
  revert Htruthy Hdecode Hobject Hlast.
  rewrite dispatchAll_snoc, storeDispatch_unfold. simpl.
  rewrite decide_True by done. rewrite last_snoc.
  intros Htruthy Hdecode Hobject [= <- <-].
  unfold create, savedReduxState.
  rewrite decide_True by done. rewrite lookup_insert_eq, Htruthy, Hdecode.
  simpl. rewrite Hobject. simpl. by rewrite Hp, Hc, Hi, Hk, Hn.
Qed.

(** X14: creation returns a store exactly when the snapshot step returns
    the state it is preloaded with and all five service factories
    succeed. *)
Theorem create_returns_iff storage services store :
  create decodeJSON env storage services = Return store <->
  savedReduxState decodeJSON env storage = Return (preloadedState store)
  /\ allCreated services.
Proof.
  unfold create, allCreated, await. destruct store as [preloaded]. simpl.
  destruct (savedReduxState decodeJSON env storage) as [s | e].
  - destruct services as [[[] | ?] [[] | ?] [[] | ?] [[] | ?] [[] | ?]];
      simpl; split; try done; try (intros [_ H]; decompose [and] H; done).
    + by intros [= ->].
    + by intros [[= ->] _].
  - split; [done | by intros [? _]].
Qed.

(** X15: whatever is in the blob store, a store that creation returns is
    preloaded with a non-null object. *)
Theorem preloaded_state_is_object storage services store :
  create decodeJSON env storage services = Return store ->
  isNonNullObject (preloadedState store) = true.
Proof.
  intros Hcreate.
  assert (Hsaved : savedReduxState decodeJSON env storage
                   = Return (preloadedState store)).
  { unfold create, await in Hcreate.
    destruct (savedReduxState decodeJSON env storage) as [s | e]; [| done].
    destruct (preferenceService services); [| done].
    destruct (chainService services); [| done].
    destruct (indexingService services); [| done].
    destruct (keyringService services); [| done].
    destruct (nameService services); [| done].
    by injection Hcreate as <-. }
  clear Hcreate. unfold savedReduxState in Hsaved.
  destruct (decide _); [| by injection Hsaved as <-].
  destruct (storage !! "state") as [t |]; [| by injection Hsaved as <-].
  destruct (truthyText t); [| by injection Hsaved as <-].
  destruct (decodeJSON t) as [v | err]; [| done].
  destruct (isNonNullObject v) eqn:Hv; [| done]. by injection Hsaved as <-.
Qed.

(** X16: a transaction event goes through the reducers twice and, with
    WRITE_REDUX_CACHE "true", is cached twice: once after the confirmed or
    seen action and once after activityEncountered. *)
Theorem onTransaction_caches_twice payload w :
  let first :=
    if truthyBlockHash (transaction payload)
       && definedGasUsed (transaction payload)
    then transactionConfirmed (transaction payload)
    else transactionSeen (transaction payload) in
  let seen := rootReducer (state w) first in
  let encountered := rootReducer seen (activityEncountered payload) in
  state (onTransaction rootReducer encodeJSON env payload w) = encountered
  /\ pendingWrites (onTransaction rootReducer encodeJSON env payload w)
     = pendingWrites w ++
       (if writing
        then [("state", encodeJSON seen); ("state", encodeJSON encountered)]
        else []).
Proof.
  unfold onTransaction.
  destruct (truthyBlockHash _ && definedGasUsed _);
    rewrite !storeDispatch_unfold; simpl;
    (split; [done |]); rewrite <- app_assoc; by destruct writing.
Qed.

End CachedStore.

Section CachedStoreExamples.

Local Abbreviation lastSeen :=
  (fun (s : value) (action : ReduxAction) =>
     match action with
     | otherAction a => VObject [("last", VString (type a))]
     | _ => s
     end).

Local Abbreviation bothOn :=
  {| WRITE_REDUX_CACHE := Some "true"; READ_REDUX_CACHE := Some "true" |}.

Local Abbreviation fresh :=
  {| state := VObject []; dispatchLog := []; pendingWrites := [] |}.

Local Abbreviation opened :=
  (otherAction {| type := "ui/opened"; payload := VNull |}).

Local Abbreviation created :=
  {| preferenceService := Return tt; chainService := Return tt;
     indexingService := Return tt; keyringService := Return tt;
     nameService := Return tt |}.

Lemma cached_state_is_restored_witness :
  create Codec.decodeJSON bothOn
    (<["state" := Codec.encodeJSON (VObject [("last", VString "ui/opened")])]>
       ∅)
    created
  = Return {| preloadedState := VObject [("last", VString "ui/opened")] |}.
Proof.
  apply (cached_state_is_restored lastSeen Codec.encodeJSON Codec.decodeJSON
           bothOn [opened] fresh ∅ created "state"
           (Codec.encodeJSON (VObject [("last", VString "ui/opened")])));
    try reflexivity; [discriminate | repeat split].
Defined.

Lemma preloaded_state_is_object_witness :
  create Codec.decodeJSON bothOn
    {[ "state" := Codec.encodeJSON (VArray [VBigInt 1]) ]} created
  = Return {| preloadedState := VArray [VBigInt 1] |}
  /\ isNonNullObject (VArray [VBigInt 1]) = true.
Proof.
  split; [reflexivity |].
  exact (preloaded_state_is_object Codec.decodeJSON bothOn
           {[ "state" := Codec.encodeJSON (VArray [VBigInt 1]) ]} created
           {| preloadedState := VArray [VBigInt 1] |} eq_refl).
Defined.

End CachedStoreExamples.

Section ChainListeners.

Context {Network : Type} (getEthereumNetwork : Network).
Context (services : ServiceReplies (Network := Network)).

Local Abbreviation listener := (onUpdateOptions getEthereumNetwork services).

(** X17: unless from, gasLimit, maxFeePerGas, maxPriorityFeePerGas and
    value are all defined, the updateOptions listener calls no service and
    completes. *)
Theorem onUpdateOptions_needs_all_options options calls :
  Options.from options = None
  \/ Options.gasLimit options = None
  \/ Options.maxFeePerGas options = None
  \/ Options.maxPriorityFeePerGas options = None
  \/ Options.value options = None ->
  listener options calls = (Completed, calls).
Proof.
  unfold onUpdateOptions.
  destruct (Options.from options), (Options.gasLimit options),
    (Options.maxFeePerGas options), (Options.maxPriorityFeePerGas options),
    (Options.value options); try done.
  intros H. by destruct_or!.
Qed.

(** X18: the updateOptions listener only appends to the service calls, and
    it asks the keyring to sign at most the one transaction built from the
    options, for the options' sender, with the nonce and the gas price the
    provider replied and with the gas limit the chain service estimated in
    place of the options' gas limit: nothing is signed unless the three
    earlier calls succeeded. *)
Theorem onUpdateOptions_signs_estimated options calls :
  exists made,
    (listener options calls).2 = calls ++ made
    /\ forall address request,
         signTransactionCall address request ∈ made ->
         exists value gasLimit maxFeePerGas maxPriorityFeePerGas
                resolvedNonce gasPrice estimate,
           Options.from options = Some address
           /\ Options.value options = Some value
           /\ Options.gasLimit options = Some gasLimit
           /\ Options.maxFeePerGas options = Some maxFeePerGas
           /\ Options.maxPriorityFeePerGas options = Some maxPriorityFeePerGas
           /\ getTransactionCount services address "latest"
              = Replied resolvedNonce
           /\ getGasPrice services = Replied gasPrice
           /\ estimateGasLimit services getEthereumNetwork
                (buildRequest address (Options.to options) value gasLimit
                   maxFeePerGas maxPriorityFeePerGas resolvedNonce gasPrice)
              = Replied estimate
           /\ request
              = buildRequest address (Options.to options) value estimate
                  maxFeePerGas maxPriorityFeePerGas resolvedNonce gasPrice
           /\ made
              = [ getTransactionCountCall address "latest";
                  getGasPriceCall;
                  estimateGasLimitCall getEthereumNetwork
                    (buildRequest address (Options.to options) value gasLimit
                       maxFeePerGas maxPriorityFeePerGas resolvedNonce
                       gasPrice);
                  signTransactionCall address request ].
Proof.
  unfold onUpdateOptions.
  destruct (Options.from options) as [from |];
    [| exists []; rewrite app_nil_r; split; [by repeat case_match | set_solver]].
  destruct (Options.gasLimit options) as [gasLimit |];
    [| exists []; rewrite app_nil_r; split; [done | set_solver]].
  destruct (Options.maxFeePerGas options) as [maxFeePerGas |];
    [| exists []; rewrite app_nil_r; split; [done | set_solver]].
  destruct (Options.maxPriorityFeePerGas options) as [maxPriorityFeePerGas |];
    [| exists []; rewrite app_nil_r; split; [done | set_solver]].
  destruct (Options.value options) as [value |];
    [| exists []; rewrite app_nil_r; split; [done | set_solver]].
  destruct (getTransactionCount services from "latest") as [nonce |] eqn:Hn;
    [| eexists; split; [done |]; intros ? ? H; set_unfold in H;
       destruct_or!; done].
  destruct (getGasPrice services) as [price |] eqn:Hp;
    [| eexists; split; [by rewrite <- app_assoc |]; intros ? ? H;
       set_unfold in H; destruct_or!; done].
  destruct (estimateGasLimit services _ _) as [estimate |] eqn:He;
    [| eexists; split; [by rewrite <- !app_assoc |]; intros ? ? H;
       set_unfold in H; destruct_or!; done].
  exists [ getTransactionCountCall from "latest"; getGasPriceCall;
           estimateGasLimitCall getEthereumNetwork
             (buildRequest from (Options.to options) value gasLimit
                maxFeePerGas maxPriorityFeePerGas nonce price);
           signTransactionCall from
             (buildRequest from (Options.to options) value estimate
                maxFeePerGas maxPriorityFeePerGas nonce price) ].
  split.
  - destruct (signTransaction services _ _); simpl; by rewrite <- !app_assoc.
  - intros address request H. set_unfold in H.
    destruct_or!; try done. injection H as -> ->.
    exists value, gasLimit, maxFeePerGas, maxPriorityFeePerGas, nonce, price,
      estimate.
    by repeat split.
Qed.

End ChainListeners.

Section ChainListenersMore.

Context {Network : Type} (getEthereumNetwork : Network).
Context (services : ServiceReplies (Network := Network)).

(** X19: the updateOptions listener swallows no failure. If its promise
    completes, then either it made no call at all or its last call asked
    the keyring to sign and the keyring replied. *)
Theorem onUpdateOptions_completes options calls :
  (onUpdateOptions getEthereumNetwork services options calls).1 = Completed ->
  (onUpdateOptions getEthereumNetwork services options calls).2 = calls
  \/ exists address request,
       last (onUpdateOptions getEthereumNetwork services options calls).2
       = Some (signTransactionCall address request)
       /\ signTransaction services address request = Replied tt.
Proof.
  unfold onUpdateOptions.
  destruct (Options.from options) as [from |]; [| left; by repeat case_match].
  destruct (Options.gasLimit options); [| by left].
  destruct (Options.maxFeePerGas options); [| by left].
  destruct (Options.maxPriorityFeePerGas options); [| by left].
  destruct (Options.value options); [| by left].
  destruct (getTransactionCount services from "latest"); [| done].
  destruct (getGasPrice services); [| done].
  destruct (estimateGasLimit services _ _); [| done].
  destruct (signTransaction services _ _) as [[] |] eqn:Hsign; [| done].
  intros _. right. eexists _, _. simpl. rewrite last_snoc. by split.
Qed.

(** X20: for the accounts the chain service tracks, the end of
    connectChainService dispatches one loadAccount per account and asks for
    one balance refresh per account, both in the order of the accounts,
    then starts the polling of block prices; with WRITE_REDUX_CACHE "true"
    it issues one cache write per account. *)
Theorem loadExistingAccounts_per_account
    (rootReducer : value -> ReduxAction -> value) (encodeJSON : value -> text)
    (env : Env) (loadAccount : string -> ReduxAction)
    (existingAccounts : list (AddressNetwork (Network := Network)))
    (background : World * list ServiceCall) :
  let after :=
    loadExistingAccounts rootReducer encodeJSON env loadAccount
      existingAccounts background in
  dispatchLog after.1
  = dispatchLog background.1
    ++ ((fun account => loadAccount (address account)) <$> existingAccounts)
  /\ after.2
     = background.2
       ++ (getLatestBaseAccountBalanceCall <$> existingAccounts)
       ++ [pollBlockPricesCall]
  /\ length (pendingWrites after.1)
     = length (pendingWrites background.1)
       + (if decide (WRITE_REDUX_CACHE env = Some "true")
          then length existingAccounts else 0).
Proof.
  unfold loadExistingAccounts. cbn zeta. cbn [fst snd].
  match goal with
  | |- context [fold_left ?f existingAccounts background] =>
      set (step := f)
  end.
  assert (Hloop :
    dispatchLog (fold_left step existingAccounts background).1
    = dispatchLog background.1
      ++ ((fun account => loadAccount (address account)) <$> existingAccounts)
    /\ (fold_left step existingAccounts background).2
       = background.2 ++ (getLatestBaseAccountBalanceCall <$> existingAccounts)
    /\ length (pendingWrites (fold_left step existingAccounts background).1)
       = length (pendingWrites background.1)
         + (if decide (WRITE_REDUX_CACHE env = Some "true")
            then length existingAccounts else 0)).
  { induction existingAccounts as [| account accounts IH] using rev_ind.
    - cbn [fold_left fmap list_fmap length]. rewrite !app_nil_r.
      split; [done |]. split; [done |]. destruct (decide _); lia.
    - rewrite fold_left_app. cbn [fold_left]. unfold step at 1 3 5.
      cbn [fst snd]. destruct IH as (Hlog & Hcalls & Hwrites).
      rewrite storeDispatch_unfold. cbn [snd dispatchLog pendingWrites].
      rewrite !fmap_app, Hlog, Hcalls, !length_app, Hwrites.
      cbn [fmap list_fmap length].
      split; [by rewrite app_assoc |]. split; [by rewrite app_assoc |].
      destruct (decide _); simpl; lia. }
  destruct Hloop as (Hlog & Hcalls & Hwrites).
  split; [exact Hlog |]. split; [| exact Hwrites].
  by rewrite Hcalls, app_assoc.
Qed.

End ChainListenersMore.

Section ChainListenersExamples.

Local Abbreviation answering :=
  {| getTransactionCount := fun _ _ => Replied 7%Z;
     getGasPrice := Replied 30%Z;
     estimateGasLimit := fun (_ : string) _ => Replied 21000%Z;
     signTransaction := fun _ _ => Replied tt |}.

Local Abbreviation transfer :=
  {| Options.from := Some "0xa"; Options.to := Some "0xb";
     Options.value := Some 1%Z; Options.gasLimit := Some 0%Z;
     Options.maxFeePerGas := Some 40%Z;
     Options.maxPriorityFeePerGas := Some 2%Z |}.

Lemma onUpdateOptions_needs_all_options_witness :
  onUpdateOptions "ethereum" answering
    {| Options.from := Some "0xa"; Options.to := Some "0xb";
       Options.value := Some 1%Z; Options.gasLimit := None;
       Options.maxFeePerGas := Some 40%Z;
       Options.maxPriorityFeePerGas := Some 2%Z |} []
  = (Completed, []).
Proof.
  apply (onUpdateOptions_needs_all_options "ethereum" answering).
  right. left. reflexivity.
Defined.

Lemma onUpdateOptions_completes_witness :
  (onUpdateOptions "ethereum" answering transfer []).2 = []
  \/ exists address request,
       last (onUpdateOptions "ethereum" answering transfer []).2
       = Some (signTransactionCall address request)
       /\ signTransaction answering address request = Replied tt.
Proof.
  exact (onUpdateOptions_completes "ethereum" answering transfer [] eq_refl).
Defined.

(** The request signed for [transfer] carries the estimate, 21000, and not
    the gas limit of the options. *)
Example onUpdateOptions_transfer :
  (onUpdateOptions "ethereum" answering transfer []).2
  = [ getTransactionCountCall "0xa" "latest";
      getGasPriceCall;
      estimateGasLimitCall "ethereum"
        (buildRequest "0xa" (Some "0xb") 1 0 40 2 7 30);
      signTransactionCall "0xa"
        (buildRequest "0xa" (Some "0xb") 1 21000 40 2 7 30) ].
Proof. reflexivity. Qed.

End ChainListenersExamples.

Section Relay.

(** X21: the wrapped creator and the registry agree. Once
    createBackgroundAsyncThunk has returned, every action its creator
    builds has a type under which an alias is stored, also after any later
    registrations, and the stored handler applied to that action is the
    underlying thunk run on the payload the creator was given. *)
Theorem created_action_is_aliased
    typePrefix payloadCreator options m creator m' registrations :
  createBackgroundAsyncThunk typePrefix payloadCreator options m
    = (Return creator, m') ->
  forall payload s,
    exists handler : Action -> AsyncThunkAction,
      allAliases (registerAll registrations m').2
        !! type (call creator payload s).1 = Some handler
      /\ handler (call creator payload s).1
         = createAsyncThunk typePrefix payloadCreator options payload.
Proof.
  intros Hcall payload s.
  apply createBackgroundAsyncThunk_returns in Hcall as (_ & -> & ->).
  eexists. split.
  - apply registerAll_keeps_aliases_step. simpl. apply lookup_insert_eq.
  - reflexivity.
Qed.

Lemma created_action_is_aliased_witness :
  let unlock := fun _ : value => Resolves VNull in
  let later :=
    [ {| regTypePrefix := "accounts/addAccount";
         regPayloadCreator := fun _ => Resolves VNull;
         regOptions := None |};
      {| regTypePrefix := "keyrings/unlock";
         regPayloadCreator := fun _ => Throws (VString "boom");
         regOptions := None |} ] in
  let m' :=
    (createBackgroundAsyncThunk "keyrings/unlock" unlock None
       initialModule).2 in
  exists handler : Action -> AsyncThunkAction,
    allAliases (registerAll later m').2 !! "keyrings/unlock" = Some handler
    /\ handler {| type := "keyrings/unlock"; payload := VString "secret" |}
       = createAsyncThunk "keyrings/unlock" unlock None (VString "secret").
Proof.
  intros unlock later m'.
  exact (created_action_is_aliased "keyrings/unlock" unlock None
           initialModule _ _ later eq_refl (VString "secret")
           {| dispatched := []; operationCalls := [] |}).
Defined.

End Relay.

(* ===================================================================== *)
(** ** The cache behind the whole middleware chain *)
(* ===================================================================== *)

Section MiddlewareChain.

Context (rootReducer : value -> ReduxAction -> value).
Context (encodeJSON : value -> text).
Context (env : Env).
Context (sliceAction : ReduxAction -> Action).
Context (lifecycleAction : LifecycleAction -> Action).
Context (m : UtilsModule).

Local Abbreviation relay :=
  (relayDispatch rootReducer encodeJSON env sliceAction lifecycleAction m).
Local Abbreviation handed := (dispatchAll rootReducer encodeJSON env).
Local Abbreviation writing := (decide (WRITE_REDUX_CACHE env = Some "true")).

Lemma relayDispatch_succ depth action w :
  relay (S depth) action w =
  match get (allAliases m) (type (toAction sliceAction action)) with
  | Undefined =>
      Some (Return (storeDispatch rootReducer encodeJSON env action w).2)
  | Inherited =>
      if decide (type (toAction sliceAction action) = "constructor")
      then Some (Return (storeDispatch rootReducer encodeJSON env action w).2)
      else Some (Throw TypeError)
  | Own alias =>
      fold_left
        (fun settled lifecycle =>
           match settled with
           | Some (Return w) =>
               relay depth (otherAction (lifecycleAction lifecycle)) w
           | _ => settled
           end)
        (dispatched
           (alias (toAction sliceAction action)
              {| dispatched := []; operationCalls := [] |}).2)
        (Some (Return w))
  end.
Proof. reflexivity. Qed.

(** An action whose type the alias lookup does not find is passed on to
    reduxCache and the reducers. *)
Lemma relayDispatch_passes_on depth action w :
  aliased m (type (toAction sliceAction action)) = false ->
  relay (S depth) action w
  = Some (Return (storeDispatch rootReducer encodeJSON env action w).2).
Proof.
  intros [Hnone Hinh]%aliased_false. rewrite relayDispatch_succ.
  unfold get. by rewrite Hnone, Hinh.
Qed.

Lemma handed_app actions1 actions2 w :
  handed (actions1 ++ actions2) w = handed actions2 (handed actions1 w).
Proof. unfold dispatchAll. by rewrite fold_left_app. Qed.

(** The dispatches of the lifecycle actions of a thunk, one after the
    other, as long as none throws or is cut off. *)
Lemma lifecycle_run (dispatchOne : ReduxAction -> World -> option (Completion World))
    (lifecycle : list LifecycleAction) :
  (forall action w w',
     dispatchOne action w = Some (Return w') ->
     exists passed, w' = handed passed w) ->
  forall w w',
    fold_left
      (fun settled l =>
         match settled with
         | Some (Return w) => dispatchOne (otherAction (lifecycleAction l)) w
         | _ => settled
         end) lifecycle (Some (Return w)) = Some (Return w') ->
    exists passed, w' = handed passed w.
Proof.
  intros Hone. induction lifecycle as [| l lifecycle IH]; intros w w'.
  - intros [= <-]. by exists [].
  - simpl. destruct (dispatchOne _ w) as [[w1 | e] |] eqn:Hfirst.
    + intros Hrest. apply Hone in Hfirst as [passed1 ->].
      apply IH in Hrest as [passed2 ->].
      exists (passed1 ++ passed2). by rewrite handed_app.
    + intros Hrest. exfalso. revert Hrest. clear.
      induction lifecycle as [| ? ? IHl]; [done | exact IHl].
    + intros Hrest. exfalso. revert Hrest. clear.
      induction lifecycle as [| ? ? IHl]; [done | exact IHl].
Qed.

(** Whatever is dispatched, the chain acts on the store as a run of actions
    handed to reduxCache: the action itself when it is passed on, the
    lifecycle actions of its thunk when it is relayed. *)
Lemma relayDispatch_run depth : forall action w w',
  relay depth action w = Some (Return w') ->
  exists passed, w' = handed passed w.
Proof.
  induction depth as [| depth IH]; intros action w w'; [done |].
  rewrite relayDispatch_succ.
  destruct (get _ _) as [alias | |].
  - by apply lifecycle_run.
  - destruct (decide _); [| done]. intros [= <-]. by exists [action].
  - intros [= <-]. by exists [action].
Qed.

End MiddlewareChain.

Section CacheBehindChain.

Context (rootReducer : value -> ReduxAction -> value).
Context (encodeJSON : value -> text).
Context (env : Env).
Context (sliceAction : ReduxAction -> Action).
Context (lifecycleAction : LifecycleAction -> Action).
Context (m : UtilsModule).

(** C6 (amended): when the WRITE_REDUX_CACHE flag is not "true", no
    dispatched action makes the reduxCache middleware write to the blob
    store. When it is "true", every dispatched action whose type the alias
    lookup does not find in allAliases, which is what reaches the
    middleware, performs exactly one write, of the encoded full store state
    under the key "state", after the reducers have processed the action and
    without awaiting the write. *)
Theorem reduxCache_writes_once_per_passed_action :
  (WRITE_REDUX_CACHE env <> Some "true" ->
   forall depth action w w',
     relayDispatch rootReducer encodeJSON env sliceAction lifecycleAction m
       depth action w = Some (Return w') ->
     pendingWrites w' = pendingWrites w)
  /\ (forall depth action w,
        aliased m (type (toAction sliceAction action)) = false ->
        relayDispatch rootReducer encodeJSON env sliceAction lifecycleAction m
          (S depth) action w
        = Some (Return
                  {| state := rootReducer (state w) action;
                     dispatchLog := dispatchLog w ++ [action];
                     pendingWrites :=
                       pendingWrites w ++
                       (if decide (WRITE_REDUX_CACHE env = Some "true")
                        then [("state",
                               encodeJSON (rootReducer (state w) action))]
                        else []) |})).
Proof.
  split.
  - intros Hoff depth action w w' Hrun.
    apply relayDispatch_run in Hrun as [passed ->].
    destruct (dispatchAll_reduces rootReducer encodeJSON env passed w)
      as (_ & _ & writes & Hwrites & _).
    pose proof (dispatchAll_writes rootReducer encodeJSON env passed w)
      as Hlength.
    rewrite Hwrites, length_app, decide_False in Hlength by done.
    destruct writes; [| simpl in Hlength; lia].
    by rewrite Hwrites, app_nil_r.
  - intros depth action w Hpassed.
    by rewrite relayDispatch_passes_on, storeDispatch_unfold.
Qed.

(** X11: the middleware chain changes the store only through the root
    reducer. Whatever action is dispatched, when the dispatch returns the
    state is the root reducer folded over the actions that reached it, in
    the order they were logged, whatever the write flag; the cache issues
    one write per such action when WRITE_REDUX_CACHE is "true" and none
    otherwise, each under the key "state". *)
Theorem relayDispatch_reduces depth action w w' :
  relayDispatch rootReducer encodeJSON env sliceAction lifecycleAction m
    depth action w = Some (Return w') ->
  exists reduced writes,
    dispatchLog w' = dispatchLog w ++ reduced
    /\ state w' = fold_left rootReducer reduced (state w)
    /\ pendingWrites w' = pendingWrites w ++ writes
    /\ Forall (fun write => write.1 = "state") writes
    /\ length writes
       = if decide (WRITE_REDUX_CACHE env = Some "true")
         then length reduced else 0.
Proof.
  intros [passed ->]%relayDispatch_run.
  destruct (dispatchAll_reduces rootReducer encodeJSON env passed w)
    as (Hstate & Hlog & writes & Hwrites & Hkeys).
  pose proof (dispatchAll_writes rootReducer encodeJSON env passed w)
    as Hlength.
  exists passed, writes. repeat split; try done.
  rewrite Hwrites, length_app in Hlength. lia.
Qed.

(** X12: the cache never lags behind the store. With WRITE_REDUX_CACHE
    "true", a dispatch that returns has either left the store exactly as it
    was, or the latest write issued is the encoding of the state the store
    is in. *)
Theorem relayDispatch_cache_current depth action w w' :
  WRITE_REDUX_CACHE env = Some "true" ->
  relayDispatch rootReducer encodeJSON env sliceAction lifecycleAction m
    depth action w = Some (Return w') ->
  w' = w
  \/ last (pendingWrites w') = Some ("state", encodeJSON (state w')).
Proof.
  intros Hon [passed ->]%relayDispatch_run.
  destruct passed as [| action' passed]; [by left | right].
  by apply cache_holds_current_state.
Qed.

End CacheBehindChain.

Section CacheBehindChainExamples.

Local Abbreviation unchanged := (fun (s : value) (_ : ReduxAction) => s).

Local Abbreviation writeOn :=
  {| WRITE_REDUX_CACHE := Some "true"; READ_REDUX_CACHE := None |}.

Local Abbreviation ofSlice :=
  (fun _ : ReduxAction => {| type := "slice/action"; payload := VNull |}).

Local Abbreviation ofLifecycle :=
  (fun lifecycle =>
     match lifecycle with
     | Pending typePrefix arg =>
         {| type := String.append typePrefix "/pending"; payload := arg |}
     | Fulfilled typePrefix arg result =>
         {| type := String.append typePrefix "/fulfilled"; payload := result |}
     | Rejected typePrefix arg reason =>
         {| type := String.append typePrefix "/rejected"; payload := reason |}
     end).

Local Abbreviation registered options :=
  (createBackgroundAsyncThunk "X" (fun _ => Resolves (VNumber 5)) options
     initialModule).2.

Local Abbreviation untouched :=
  {| state := VObject []; dispatchLog := []; pendingWrites := [] |}.

Local Abbreviation relayed :=
  (otherAction {| type := "X"; payload := VNull |}).

(** C6 (as stated, refuted): with WRITE_REDUX_CACHE "true", the dispatch of
    an action whose type is a registered alias performs two writes, one for
    each lifecycle action of its thunk, and the dispatched action itself
    never reaches the reducers; when the thunk is skipped the dispatch
    performs no write. *)
Lemma relayed_action_is_cached_twice_or_never :
  (exists w',
     relayDispatch unchanged Codec.encodeJSON writeOn ofSlice ofLifecycle
       (registered None) 2 relayed untouched = Some (Return w')
     /\ length (pendingWrites w') = 2
     /\ dispatchLog w'
        = [ otherAction {| type := "X/pending"; payload := VNull |};
            otherAction {| type := "X/fulfilled"; payload := VNumber 5 |} ])
  /\ relayDispatch unchanged Codec.encodeJSON writeOn ofSlice ofLifecycle
       (registered (Some {| condition := Some (fun _ => false) |}))
       2 relayed untouched
     = Some (Return untouched).
Proof. split; [eexists; split; [reflexivity | by split] | reflexivity]. Qed.

Lemma reduxCache_writes_once_per_passed_action_witness :
  relayDispatch unchanged Codec.encodeJSON writeOn ofSlice ofLifecycle
    (registered None) 1
    (otherAction {| type := "ui/opened"; payload := VNull |}) untouched
  = Some (Return
            {| state := VObject [];
               dispatchLog :=
                 [otherAction {| type := "ui/opened"; payload := VNull |}];
               pendingWrites := [("state", Codec.encodeJSON (VObject []))] |}).
Proof.
  exact (proj2 (reduxCache_writes_once_per_passed_action unchanged
                  Codec.encodeJSON writeOn ofSlice ofLifecycle
                  (registered None))
           0 (otherAction {| type := "ui/opened"; payload := VNull |})
           untouched eq_refl).
Defined.

Lemma relayDispatch_reduces_witness :
  exists reduced writes,
    [ otherAction {| type := "X/pending"; payload := VNull |};
      otherAction {| type := "X/fulfilled"; payload := VNumber 5 |} ]
    = [] ++ reduced
    /\ VObject [] = fold_left unchanged reduced (VObject [])
    /\ [ ("state", Codec.encodeJSON (VObject []));
         ("state", Codec.encodeJSON (VObject [])) ] = [] ++ writes
    /\ Forall (fun write : string * text => write.1 = "state") writes
    /\ length writes = length reduced.
Proof.
  exact (relayDispatch_reduces unchanged Codec.encodeJSON writeOn ofSlice
           ofLifecycle (registered None) 2 relayed untouched _ eq_refl).
Defined.

Lemma relayDispatch_cache_current_witness :
  {| state := VObject [];
     dispatchLog :=
       [ otherAction {| type := "X/pending"; payload := VNull |};
         otherAction {| type := "X/fulfilled"; payload := VNumber 5 |} ];
     pendingWrites :=
       [ ("state", Codec.encodeJSON (VObject []));
         ("state", Codec.encodeJSON (VObject [])) ] |}
  = untouched
  \/ last [ ("state", Codec.encodeJSON (VObject []));
            ("state", Codec.encodeJSON (VObject [])) ]
     = Some ("state", Codec.encodeJSON (VObject [])).
Proof.
  exact (relayDispatch_cache_current unchanged Codec.encodeJSON writeOn
           ofSlice ofLifecycle (registered None) 2 relayed untouched _
           eq_refl eq_refl).
Defined.

End CacheBehindChainExamples.
